(** * Alert lifecycle and notification subsystem

    A shallow embedding of the alert store ([AlertContext]: the reducer,
    its initial state, the persistence effect and the daily cleanup) and
    of the notification surface ([AlertNotification]: the promotion
    effect, the auto-dismiss timers and [dismissNotification]), followed
    by the properties of the specification that concern them. *)

From Stdlib Require Import String Ascii List ZArith QArith Bool Lia.
Import ListNotations.
Open Scope Z_scope.

(** ** JavaScript values used by the store

    A field that may be absent from an object is an [option]; reading an
    absent field gives [undefined], which is [None] here.  Strings are
    compared with [===]; two absent fields are equal ([undefined ===
    undefined]).  Alert ids are JavaScript numbers ([Date.now() +
    Math.random()]), modelled as rationals compared with [Qeq_bool];
    the rounding of the sum to a double is not modelled.
    A timestamp is written with [toISOString()] and read back with
    [new Date(_).getTime()]; that round trip is exact to the
    millisecond, so a timestamp is the integer number of milliseconds
    since the epoch. *)

Module JS.

Definition strict_eq (a b : option string) : bool :=
  match a, b with
  | Some x, Some y => String.eqb x y
  | None, None => true
  | _, _ => false
  end.

Definition num_eq (a b : Q) : bool := Qeq_bool a b.

(** Truthiness of the result of [Array.prototype.find] on an array of
    objects: an object is truthy, [undefined] is falsy. *)
Definition truthy {A : Type} (o : option A) : bool :=
  match o with Some _ => true | None => false end.

(** [Array.prototype.slice(0, n)]. *)
Definition slice0 {A : Type} (n : nat) (l : list A) : list A := firstn n l.

(** The clock and the random source read by one reducer run:
    [Date.now()] (and [new Date()], read in the same synchronous run)
    and [Math.random()]. *)
Record Env := { now : Z; random : Q }.

End JS.
Import JS.

(** ** The alert store (contexts/AlertContext) *)

Module AlertContext.

Definition Details := list (string * string).

Record Alert := {
  id : Q;
  timestamp : Z;
  read : bool;
  type : option string;
  title : option string;
  content : option string;
  riskLevel : option string;
  severity : option string;
  details : option Details
}.

(** The object handed to [addAlert]: any of the fields may be present,
    including [id], [timestamp] and [read]. *)
Record Payload := {
  p_id : option Q;
  p_timestamp : option Z;
  p_read : option bool;
  p_type : option string;
  p_title : option string;
  p_content : option string;
  p_riskLevel : option string;
  p_severity : option string;
  p_details : option Details
}.

Record State := { alerts : list Alert; unreadCount : Z }.

Inductive Action :=
| ADD_ALERT (payload : Payload)
| REMOVE_ALERT (payload : Q)
| CLEAR_ALERTS
| MARK_AS_READ (payload : Q)
| OTHER.

(** What [localStorage.getItem('phishingAlerts')] holds: nothing, or
    the JSON text written by the persistence effect, represented by
    the array it parses to.  (Text that does not parse makes
    [JSON.parse] throw while the module loads; that case has no state
    and is left out.) *)
Inductive Storage := absent | stored (json : list Alert).

Definition JSON_parse_or_empty (st : Storage) : list Alert :=
  match st with absent => [] | stored l => l end.

Definition initialState (localStorage : Storage) : State :=
  {| alerts := JSON_parse_or_empty localStorage; unreadCount := 0 |}.

(** The effect [localStorage.setItem('phishingAlerts',
    JSON.stringify(state.alerts))]. *)
Definition persist (state : State) : Storage := stored (alerts state).

Definition or_default {A : Type} (d : A) (o : option A) : A :=
  match o with Some x => x | None => d end.

(** [{ id: Date.now() + Math.random(), timestamp: new
    Date().toISOString(), read: false, ...action.payload }]: the
    payload is spread last, so its own fields win. *)
Definition newAlert (e : Env) (p : Payload) : Alert :=
  {| id := or_default (inject_Z (now e) + random e)%Q (p_id p);
     timestamp := or_default (now e) (p_timestamp p);
     read := or_default false (p_read p);
     type := p_type p;
     title := p_title p;
     content := p_content p;
     riskLevel := p_riskLevel p;
     severity := p_severity p;
     details := p_details p |}.

(** The predicate of the duplicate search. *)
Definition isDuplicateOf (e : Env) (n : Alert) (alert : Alert) : bool :=
  strict_eq (content alert) (content n)
  && strict_eq (type alert) (type n)
  && (now e - 60000 <? timestamp alert).

Definition existingAlert (e : Env) (state : State) (n : Alert) : option Alert :=
  find (isDuplicateOf e n) (alerts state).

Definition set_read (a : Alert) : Alert :=
  {| id := id a; timestamp := timestamp a; read := true;
     type := type a; title := title a; content := content a;
     riskLevel := riskLevel a; severity := severity a;
     details := details a |}.

Definition alertReducer (e : Env) (state : State) (action : Action) : State :=
  match action with
  | ADD_ALERT payload =>
      let n := newAlert e payload in
      if truthy (existingAlert e state n) then state
      else
        let updatedAlerts := slice0 100 (n :: alerts state) in
        {| alerts := updatedAlerts; unreadCount := unreadCount state + 1 |}
  | REMOVE_ALERT payload =>
      let filteredAlerts :=
        filter (fun alert => negb (num_eq (id alert) payload)) (alerts state) in
      let removedAlert :=
        find (fun alert => num_eq (id alert) payload) (alerts state) in
      {| alerts := filteredAlerts;
         unreadCount :=
           match removedAlert with
           | Some r => if negb (read r) then unreadCount state - 1
                       else unreadCount state
           | None => unreadCount state
           end |}
  | CLEAR_ALERTS => {| alerts := []; unreadCount := 0 |}
  | MARK_AS_READ payload =>
      let readAlerts :=
        map (fun alert => if num_eq (id alert) payload then set_read alert
                          else alert) (alerts state) in
      let wasUnread :=
        find (fun alert => num_eq (id alert) payload && negb (read alert))
             (alerts state) in
      {| alerts := readAlerts;
         unreadCount := if truthy wasUnread then unreadCount state - 1
                        else unreadCount state |}
  | OTHER => state
  end.

(** The provider's actions: each one dispatches and returns nothing. *)
Definition addAlert (e : Env) (alert : Payload) (state : State) : State * unit :=
  (alertReducer e state (ADD_ALERT alert), tt).
Definition removeAlert (e : Env) (alertId : Q) (state : State) : State * unit :=
  (alertReducer e state (REMOVE_ALERT alertId), tt).
Definition clearAlerts (e : Env) (state : State) : State * unit :=
  (alertReducer e state CLEAR_ALERTS, tt).
Definition markAsRead (e : Env) (alertId : Q) (state : State) : State * unit :=
  (alertReducer e state (MARK_AS_READ alertId), tt).

(** A sequence of dispatched actions, each reduced with the clock and
    random draw of its own run. *)
Definition dispatch_all (state : State) (acts : list (Env * Action)) : State :=
  fold_left (fun s ea => alertReducer (fst ea) s (snd ea)) acts state.

(** Re-dispatching a stored alert: the payload is the alert object
    itself, with all its fields. *)
Definition as_payload (a : Alert) : Payload :=
  {| p_id := Some (id a); p_timestamp := Some (timestamp a);
     p_read := Some (read a); p_type := type a; p_title := title a;
     p_content := content a; p_riskLevel := riskLevel a;
     p_severity := severity a; p_details := details a |}.

(** [thirtyDaysAgo.setDate(thirtyDaysAgo.getDate() - 30)]: thirty
    calendar days before the clock reading, taken as thirty days of
    86 400 000 ms (no daylight-saving shift in between). *)
Definition thirtyDaysAgo (e : Env) : Z := now e - 30 * 86400000.

Definition recentAlerts (e : Env) (state : State) : list Alert :=
  filter (fun alert => thirtyDaysAgo e <? timestamp alert) (alerts state).

(** The daily [cleanup] callback: when something is older than thirty
    days it dispatches [CLEAR_ALERTS] and then one [ADD_ALERT] per
    recent alert, in array order; the queued actions are reduced one
    after the other in the same tick. *)
Definition cleanup (e : Env) (state : State) : State :=
  let recent := recentAlerts e state in
  if (length recent <? length (alerts state))%nat then
    dispatch_all state
      ((e, CLEAR_ALERTS) :: map (fun alert => (e, ADD_ALERT (as_payload alert))) recent)
  else state.

(** The alert builders exported next to the provider; a caller relying
    on a default parameter passes the default ('medium', 'info', an
    empty details object) explicitly here. *)
Definition createPhishingAlert (content_ : string) (kind : string)
           (riskLevel_ : option string) (details_ : Details) : Payload :=
  {| p_id := None; p_timestamp := None; p_read := None;
     p_type := Some "phishing_detected"%string;
     p_title := Some ("Phishing " ++ kind ++ " Detected")%string;
     p_content := Some content_;
     p_riskLevel := riskLevel_;
     p_severity :=
       if strict_eq riskLevel_ (Some "critical"%string) then Some "critical"%string
       else if strict_eq riskLevel_ (Some "high"%string) then Some "high"%string
       else Some "medium"%string;
     p_details := Some details_ |}.

Definition createSecurityAlert (title_ content_ : string)
           (severity_ : string) (details_ : Details) : Payload :=
  {| p_id := None; p_timestamp := None; p_read := None;
     p_type := Some "security_warning"%string;
     p_title := Some title_; p_content := Some content_;
     p_riskLevel := None; p_severity := Some severity_;
     p_details := Some details_ |}.

Definition createSystemAlert (title_ content_ : string)
           (type_ : string) (details_ : Details) : Payload :=
  {| p_id := None; p_timestamp := None; p_read := None;
     p_type := Some "system_notification"%string;
     p_title := Some title_; p_content := Some content_;
     p_riskLevel := None; p_severity := Some type_;
     p_details := Some details_ |}.

(** The full recount the counter is compared with. *)
Definition unread_recount (l : list Alert) : Z :=
  Z.of_nat (length (filter (fun a => negb (read a)) l)).

End AlertContext.
Import AlertContext.

(** ** The notification surface (components/AlertNotification) *)

Module AlertNotification.

(** A pending [setTimeout] callback: the clock reading at which it
    fires and the alert id its closure dismisses. *)
Record Timer := { due : Z; alertId : Q }.

(** The component's state hooks, and the timers its effect has set. *)
Record Presenter := {
  visibleAlerts : list Alert;
  autoDismiss : bool;
  dismissTimeout : Z;
  timers : list Timer
}.

(** [useState([])], [useState(true)], [useState(5000)]. *)
Definition initialPresenter : Presenter :=
  {| visibleAlerts := []; autoDismiss := true; dismissTimeout := 5000;
     timers := [] |}.

Definition highPriority (alert : Alert) : bool :=
  strict_eq (severity alert) (Some "critical"%string)
  || strict_eq (severity alert) (Some "high"%string)
  || strict_eq (type alert) (Some "phishing_detected"%string).

Definition newAlerts (alerts_ : list Alert) (visible : list Alert) : list Alert :=
  filter (fun alert =>
            negb (read alert)
            && negb (truthy (find (fun v => num_eq (id v) (id alert)) visible))
            && highPriority alert)
         alerts_.

(** The promotion effect, run after a render in which the alerts or the
    visible set changed. *)
Definition promotionEffect (e : Env) (alerts_ : list Alert) (p : Presenter) : Presenter :=
  let new := newAlerts alerts_ (visibleAlerts p) in
  if (0 <? length new)%nat then
    {| visibleAlerts := visibleAlerts p ++ new;
       autoDismiss := autoDismiss p;
       dismissTimeout := dismissTimeout p;
       timers :=
         if autoDismiss p then
           timers p ++ map (fun alert => {| due := now e + dismissTimeout p;
                                            alertId := id alert |}) new
         else timers p |}
  else p.

(** [dismissNotification]: the new component state and the store
    actions it dispatches. *)
Definition dismissNotification (alertId_ : Q) (p : Presenter) : Presenter * list Action :=
  ({| visibleAlerts :=
        filter (fun alert => negb (num_eq (id alert) alertId_)) (visibleAlerts p);
      autoDismiss := autoDismiss p;
      dismissTimeout := dismissTimeout p;
      timers := timers p |},
   [MARK_AS_READ alertId_]).

(** The provider and the notification component together; [log] records
    the store actions dispatched by the notification component. *)
Record System := { store : State; presenter : Presenter; log : list Action }.

(** The page as it is created on load, before its first render. *)
Definition initialSystem (localStorage : Storage) : System :=
  {| store := initialState localStorage; presenter := initialPresenter;
     log := [] |}.

Definition rerender (e : Env) (sys : System) : System :=
  {| store := store sys;
     presenter := promotionEffect e (alerts (store sys)) (presenter sys);
     log := log sys |}.

Definition dismiss (e : Env) (alertId_ : Q) (sys : System) : System :=
  let '(p, acts) := dismissNotification alertId_ (presenter sys) in
  rerender e
    {| store := dispatch_all (store sys) (map (fun a => (e, a)) acts);
       presenter := p;
       log := log sys ++ acts |}.

Definition is_due (e : Env) (t : Timer) : bool := due t <=? now e.

Definition drop_due (e : Env) (p : Presenter) : Presenter :=
  {| visibleAlerts := visibleAlerts p; autoDismiss := autoDismiss p;
     dismissTimeout := dismissTimeout p;
     timers := filter (fun t => negb (is_due e t)) (timers p) |}.

(** The timers whose delay has elapsed fire in the order they were set;
    a fired timer is gone. *)
Definition fire_due (e : Env) (sys : System) : System :=
  fold_left (fun s t => dismiss e (alertId t) s)
            (filter (is_due e) (timers (presenter sys)))
            {| store := store sys; presenter := drop_due e (presenter sys);
               log := log sys |}.

(** What happens on the page: the component mounts (or renders again
    for a reason of its own), some component dispatches a store action,
    the user presses a button of a notification, or the clock reaches
    pending timers. *)
Inductive Event :=
| Mount
| Dispatch (a : Action)
| Click (alertId_ : Q)
| Timeout.

(** One event of the page, followed by the render it causes. *)
Definition handle (sys : System) (ev : Env * Event) : System :=
  let e := fst ev in
  match snd ev with
  | Mount => rerender e sys
  | Dispatch a =>
      rerender e {| store := alertReducer e (store sys) a;
                    presenter := presenter sys; log := log sys |}
  | Click i => dismiss e i sys
  | Timeout => fire_due e sys
  end.

Definition run (sys : System) (evs : list (Env * Event)) : System :=
  fold_left handle evs sys.

(** How often the notification component dispatched [MARK_AS_READ] for
    a given id. *)
Definition markAsRead_calls (i : Q) (l : list Action) : nat :=
  length (filter (fun a => match a with
                           | MARK_AS_READ j => num_eq j i
                           | _ => false
                           end) l).

End AlertNotification.
Import AlertNotification.

(** ** Sample inputs used by the concrete runs below *)

Definition at_time (t : Z) : Env := {| now := t; random := 1 # 2 |}.

(** A one-character content, distinct for distinct [k < 200]. *)
Definition sample_content (k : nat) : string :=
  String (ascii_of_nat (48 + k)) EmptyString.

Definition sample_candidate (k : nat) : Payload :=
  createSystemAlert "notice" (sample_content k) "info" [].

(** [n] candidates with pairwise distinct content, added one
    millisecond apart starting at clock reading 1000. *)
Definition sample_adds (n : nat) : list (Env * Action) :=
  map (fun k => (at_time (1000 + Z.of_nat k), ADD_ALERT (sample_candidate k)))
      (seq 0 n).

Definition emptyStore : State := initialState absent.

(** ** Predicates used in the statements *)

(** What [MARK_AS_READ i] does to one alert: everything but [read] is
    kept, and [read] becomes true exactly on the alerts whose id is [i]. *)
Definition marked (i : Q) (a a' : Alert) : Prop :=
  id a' = id a /\ timestamp a' = timestamp a /\ type a' = type a
  /\ title a' = title a /\ content a' = content a
  /\ riskLevel a' = riskLevel a /\ severity a' = severity a
  /\ details a' = details a
  /\ read a' = (read a || num_eq (id a) i).

Definition unread_with_id (i : Q) (a : Alert) : bool :=
  num_eq (id a) i && negb (read a).

(** A candidate that also carries the fields the store normally
    assigns. *)
Definition with_store_fields (i : option Q) (t : option Z) (r : option bool)
           (p : Payload) : Payload :=
  {| p_id := i; p_timestamp := t; p_read := r;
     p_type := p_type p; p_title := p_title p; p_content := p_content p;
     p_riskLevel := p_riskLevel p; p_severity := p_severity p;
     p_details := p_details p |}.

(** A malformed candidate: one of the required fields (kind, title,
    content, severity) is missing. *)
Definition malformed (p : Payload) : bool :=
  negb (truthy (p_type p)) || negb (truthy (p_title p))
  || negb (truthy (p_content p)) || negb (truthy (p_severity p)).

Definition bare_candidate : Payload :=
  {| p_id := None; p_timestamp := None; p_read := None; p_type := None;
     p_title := None; p_content := None; p_riskLevel := None;
     p_severity := None; p_details := None |}.

(** The duplicate rule as the specification words it: identical
    content, identical kind, and a creation time within 60 seconds of
    the current clock reading. *)
Definition within_60s_of_now (e : Env) (a : Alert) : bool :=
  Z.abs (now e - timestamp a) <=? 60000.

Definition duplicate_by_spec (e : Env) (p : Payload) (a : Alert) : bool :=
  strict_eq (content a) (p_content p) && strict_eq (type a) (p_type p)
  && within_60s_of_now e a.

Definition day : Z := 86400000.

(** A store with, newest first, a read alert, an unread alert, and an
    alert added forty days before them. *)
Definition aged_store : State :=
  dispatch_all emptyStore
    [ (at_time 1000, ADD_ALERT (sample_candidate 1));
      (at_time (1000 + 40 * day), ADD_ALERT (sample_candidate 2));
      (at_time (2000 + 40 * day), ADD_ALERT (sample_candidate 3));
      (at_time (3000 + 40 * day), MARK_AS_READ (inject_Z (2000 + 40 * day) + (1 # 2))%Q) ].

(** A store holding two recent alerts with the same kind and content,
    added 61 seconds apart, above a forty-day-old one. *)
Definition repeated_store : State :=
  dispatch_all emptyStore
    [ (at_time 1000, ADD_ALERT (sample_candidate 1));
      (at_time (1000 + 40 * day), ADD_ALERT (sample_candidate 2));
      (at_time (62000 + 40 * day), ADD_ALERT (sample_candidate 2)) ].

(** The survivors a sweep is specified to leave: the alerts newer than
    thirty days, in store order. *)
Definition survivors (e : Env) (s : State) : list Alert := recentAlerts e s.

(** Every visible notification is a high-priority alert. *)
Definition all_highPriority (sys : System) : Prop :=
  forall v, In v (visibleAlerts (presenter sys)) -> highPriority v = true.

(** The notification for id [i] is over: nothing visible has that id
    and every stored alert with that id is read. *)
Definition settled (i : Q) (sys : System) : Prop :=
  (forall v, In v (visibleAlerts (presenter sys)) -> num_eq (id v) i = false)
  /\ (forall a, In a (alerts (store sys)) -> num_eq (id a) i = true -> read a = true).

Definition timer_for (t : Z) (a : Alert) : Timer :=
  {| due := t; alertId := id a |}.

(** The auto-dismiss settings the component starts with; no code path
    calls their setters. *)
Definition initial_settings (sys : System) : Prop :=
  autoDismiss (presenter sys) = true /\ dismissTimeout (presenter sys) = 5000.

(** A page on which one high-severity security warning was added at
    clock reading 500 and is still showing. *)
Definition page_with_warning : System :=
  run (initialSystem absent)
      [(at_time 500,
        Dispatch (ADD_ALERT (createSecurityAlert "login" "new device" "high" [])))].

(** ** Store invariants *)

(** No two stored alerts have the same id. *)
Fixpoint distinct_ids (l : list Alert) : Prop :=
  match l with
  | [] => True
  | a :: l' =>
      (forall b, In b l' -> num_eq (id b) (id a) = false) /\ distinct_ids l'
  end.

(** The counter agrees with a recount, and ids are distinct. *)
Definition store_consistent (s : State) : Prop :=
  unreadCount s = unread_recount (alerts s) /\ distinct_ids (alerts s).

(** An action that keeps a consistent store consistent: anything but an
    add; an add whose alert is stored unread under an id no stored
    alert has, into a store with room left below the cap. *)
Definition keeps_consistent (e : Env) (s : State) (a : Action) : Prop :=
  match a with
  | ADD_ALERT p =>
      read (newAlert e p) = false
      /\ (length (alerts s) < 100)%nat
      /\ (forall b, In b (alerts s) -> num_eq (id b) (id (newAlert e p)) = false)
  | _ => True
  end.

Fixpoint keeps_consistent_all (s : State) (acts : list (Env * Action)) : Prop :=
  match acts with
  | [] => True
  | (e, a) :: rest =>
      keeps_consistent e s a /\ keeps_consistent_all (alertReducer e s a) rest
  end.

(** Two adds, a marking of the first alert and a removal of the second. *)
Definition small_run : list (Env * Action) :=
  [ (at_time 1000, ADD_ALERT (sample_candidate 0));
    (at_time 2000, ADD_ALERT (sample_candidate 1));
    (at_time 3000, MARK_AS_READ (2001 # 2));
    (at_time 4000, REMOVE_ALERT (4001 # 2)) ].

(** ** The alert feed (components/RealTimeAlerts) *)

From Stdlib Require Import DecimalString.

Module RealTimeAlerts.

(** A number interpolated into a template literal. *)
Definition string_of_Z (z : Z) : string := NilZero.string_of_int (Z.to_int z).

(** [filteredAlerts], for the current value of the filter select and
    of the unread-only toggle. *)
Definition filteredAlerts (filter_ : string) (showUnreadOnly : bool)
           (alerts_ : list Alert) : list Alert :=
  filter (fun alert =>
            if showUnreadOnly && read alert then false
            else if String.eqb filter_ "all" then true
            else if String.eqb filter_ "phishing"
                 then strict_eq (type alert) (Some "phishing_detected"%string)
            else if String.eqb filter_ "security"
                 then strict_eq (type alert) (Some "security_warning"%string)
            else if String.eqb filter_ "system"
                 then strict_eq (type alert) (Some "system_notification"%string)
            else if String.eqb filter_ "critical"
                 then strict_eq (severity alert) (Some "critical"%string)
            else if String.eqb filter_ "high"
                 then strict_eq (severity alert) (Some "high"%string)
            else true)
         alerts_.

(** [handleAlertAction]: the store actions it dispatches ([report] and
    [learn_more] only write to the console). *)
Definition handleAlertAction (alert : Alert) (action : string) : list Action :=
  if String.eqb action "dismiss" then [REMOVE_ALERT (id alert)]
  else if String.eqb action "mark_read" then [MARK_AS_READ (id alert)]
  else [].

(** The store after a button of the feed was pressed. *)
Definition press (e : Env) (alert : Alert) (action : string) (s : State) : State :=
  dispatch_all s (map (fun a => (e, a)) (handleAlertAction alert action)).

(** [formatTimestamp]; [Math.floor] of a quotient by a positive
    constant is [Z.div].  [toLocaleDateString] depends on the browser's
    locale and is a parameter. *)
Definition formatTimestamp (toLocaleDateString : Z -> string)
           (now_ : Z) (timestamp_ : Z) : string :=
  let diffMs := now_ - timestamp_ in
  let diffMins := diffMs / 60000 in
  let diffHours := diffMs / 3600000 in
  let diffDays := diffMs / 86400000 in
  if diffMins <? 1 then "Just now"%string
  else if diffMins <? 60 then (string_of_Z diffMins ++ "m ago")%string
  else if diffHours <? 24 then (string_of_Z diffHours ++ "h ago")%string
  else if diffDays <? 7 then (string_of_Z diffDays ++ "d ago")%string
  else toLocaleDateString timestamp_.

End RealTimeAlerts.
Import RealTimeAlerts.

(** ** The dashboard's recent alerts (components/RecentAlerts) *)

Module RecentAlerts.

(** [formatTime]. *)
Definition formatTime (now_ : Z) (timestamp_ : Z) : string :=
  let diffInHours := (now_ - timestamp_) / (1000 * 60 * 60) in
  if diffInHours <? 1 then "Just now"%string
  else if diffInHours =? 1 then "1 hour ago"%string
  else if diffInHours <? 24 then (string_of_Z diffInHours ++ " hours ago")%string
  else
    let diffInDays := diffInHours / 24 in
    if diffInDays =? 1 then "1 day ago"%string
    else (string_of_Z diffInDays ++ " days ago")%string.

(** What the dashboard hands to the component: [alerts.slice(0, 5)],
    rendered only when the store is not empty. *)
Definition dashboardRecent (s : State) : option (list Alert) :=
  if (0 <? length (alerts s))%nat then Some (slice0 5 (alerts s)) else None.

End RecentAlerts.
Import RecentAlerts.

(** ** The API client (services/api) *)

Module Api.

(** [String.prototype.includes]. *)
Fixpoint includes (needle hay : string) : bool :=
  if String.prefix needle hay then true
  else match hay with
       | EmptyString => false
       | String _ rest => includes needle rest
       end.

(** [a || b] on strings: the empty string is falsy. *)
Definition or_else (a b : string) : string :=
  if String.eqb a "" then b else a.

(** How a promise settles. *)
Inductive Settled (A : Type) :=
| Fulfilled (value : A)
| Rejected (message : string).
Arguments Fulfilled {A} value.
Arguments Rejected {A} message.

Record NetworkError := { error : string; kind : string }.

(** [handleNetworkError], on the [message] of the error it is given;
    [kind] is the [type] property of the object it returns. *)
Definition handleNetworkError (message : string) : NetworkError :=
  if includes "Failed to fetch" message then
    {| error := "Unable to connect to the server. Please check your internet connection.";
       kind := "network" |}
  else if includes "timeout" message then
    {| error := "Request timed out. Please try again."; kind := "timeout" |}
  else
    {| error := or_else message "An unexpected error occurred. Please try again.";
       kind := "unknown" |}.

(** A fetch response: its [ok] flag and how [response.json()] settles.
    [J] is the type of parsed bodies and [error_of] reads the [error]
    property of a parsed body, a string when the server sends one. *)
Record Response (J : Type) := { ok : bool; json : Settled J }.
Arguments ok {J} _.
Arguments json {J} _.

Definition handleResponse {J : Type} (error_of : J -> option string)
           (response : Response J) : Settled J :=
  if negb (ok response) then
    let error_ :=
      match json response with
      | Fulfilled body => error_of body
      | Rejected _ => Some "Network error"%string
      end in
    Rejected (or_else (or_default ""%string error_) "API request failed")
  else json response.

(** One call of the request function: it resolves or it throws. *)
Inductive Attempt (A E : Type) :=
| Resolves (value : A)
| Throws (err : E).
Arguments Resolves {A E} value.
Arguments Throws {A E} err.

(** What [retryRequest] does in the end: it returns the value of a
    successful attempt, rethrows the error of the last attempt, or falls
    out of the loop and returns [undefined]. *)
Inductive Retried (A E : Type) :=
| Returned (value : A)
| Rethrown (err : E)
| ReturnedUndefined.
Arguments Returned {A E} value.
Arguments Rethrown {A E} err.
Arguments ReturnedUndefined {A E}.

(** A run of [retryRequest]: its result, the number of calls of the
    request function and the delays waited, in order. *)
Record RetryRun (A E : Type) := {
  outcome : Retried A E;
  calls : nat;
  waits : list Z
}.
Arguments outcome {A E} _.
Arguments calls {A E} _.
Arguments waits {A E} _.

(** The loop from iteration [i] with [remaining = maxRetries - i]
    iterations to go; [requestFunc k] is how the call made in iteration
    [k] ends. *)
Fixpoint retry_loop {A E : Type} (requestFunc : nat -> Attempt A E) (delay : Z)
         (i remaining : nat) : RetryRun A E :=
  match remaining with
  | O => {| outcome := ReturnedUndefined; calls := 0; waits := [] |}
  | S remaining' =>
      match requestFunc i with
      | Resolves v => {| outcome := Returned v; calls := 1; waits := [] |}
      | Throws err =>
          if (remaining' =? 0)%nat then
            {| outcome := Rethrown err; calls := 1; waits := [] |}
          else
            let r := retry_loop requestFunc delay (S i) remaining' in
            {| outcome := outcome r; calls := S (calls r);
               waits := delay * 2 ^ Z.of_nat i :: waits r |}
      end
  end.

Definition retryRequest {A E : Type} (requestFunc : nat -> Attempt A E)
           (maxRetries : nat) (delay : Z) : RetryRun A E :=
  retry_loop requestFunc delay 0 maxRetries.

Definition total_wait (l : list Z) : Z := fold_right Z.add 0 l.

End Api.
Import Api.

(** A request function failing twice before it resolves. *)
Definition flaky (k : nat) : Attempt string string :=
  if (k <? 2)%nat then Throws "Failed to fetch"%string else Resolves "ok"%string.

(** ** Scan statistics (components/TextAnalyzer, components/Dashboard) *)

Module Statistics.

Record Stats := {
  totalScans : Z;
  threatsDetected : Z;
  safeContent : Z;
  accuracyRate : Z
}.

(** What [localStorage.getItem('phishingStats')] holds: nothing, the
    JSON text of a statistics object (represented by the object), or
    text on which [JSON.parse] throws. *)
Inductive StatsStorage :=
| no_stats
| stats_json (stats : Stats)
| stats_unparsable.

(** The literal parsed when nothing is stored. *)
Definition defaultStats : Stats :=
  {| totalScans := 0; threatsDetected := 0; safeContent := 0; accuracyRate := 95 |}.

(** [updateStatistics], on the [risk_level] of an analysis result; a
    parse error is caught and nothing is written. *)
Definition updateStatistics (risk_level : option string) (ls : StatsStorage)
  : StatsStorage :=
  match ls with
  | stats_unparsable => stats_unparsable
  | _ =>
      let stats := match ls with stats_json s => s | _ => defaultStats end in
      let threat := strict_eq risk_level (Some "high"%string)
                    || strict_eq risk_level (Some "critical"%string) in
      let safe := strict_eq risk_level (Some "low"%string) in
      stats_json
        {| totalScans := totalScans stats + 1;
           threatsDetected :=
             if threat then threatsDetected stats + 1 else threatsDetected stats;
           safeContent :=
             if threat then safeContent stats
             else if safe then safeContent stats + 1 else safeContent stats;
           accuracyRate := accuracyRate stats |}
  end.

(** The dashboard's [loadStats]: the state starts at zero and is
    replaced by what is stored when that parses. *)
Definition loadStats (ls : StatsStorage) : Stats :=
  match ls with
  | stats_json s => s
  | _ => {| totalScans := 0; threatsDetected := 0; safeContent := 0;
            accuracyRate := 0 |}
  end.

(** The storage after a series of analyses. *)
Definition after_analyses (ls : StatsStorage) (results : list (option string))
  : StatsStorage :=
  fold_left (fun st r => updateStatistics r st) results ls.

Definition is_threat (r : option string) : bool :=
  strict_eq r (Some "high"%string) || strict_eq r (Some "critical"%string).

Definition is_safe (r : option string) : bool :=
  strict_eq r (Some "low"%string).

Definition count (f : option string -> bool) (l : list (option string)) : Z :=
  Z.of_nat (length (filter f l)).

End Statistics.
Import Statistics.

(** ** The image analyzer (components/ImageAnalyzer) *)

From Stdlib Require Import Qround Lqa.

Module ImageAnalyzer.

(** The members of the object [services/api] exports by default, which
    the component imports as [api]. *)
Definition api_default_export : list string :=
  [ "analyzeText"; "analyzeImage"; "analyzeEmail"; "analyzeURL";
    "getEducationalContent"; "getQuizQuestions"; "generateSafetyReport";
    "getSecurityChecklist"; "getEmergencyContacts"; "checkHealth";
    "fileToBase64"; "isValidImageFile"; "isValidFileSize";
    "handleNetworkError"; "retryRequest" ]%string.

Definition api_has (member : string) : bool :=
  existsb (String.eqb member) api_default_export.

Record DetectedElement := {
  element_type : string;
  description : string;
  element_confidence : Z
}.

Record MockResponse := {
  risk_level : string;
  confidence : Z;
  reasoning : string;
  detected_elements : list DetectedElement;
  recommendations : list string
}.

(** The demo response built in the [catch] block; [r1] and [r2] are
    the two draws of [Math.random()], in the order they are made. *)
Definition mockResponse (r1 r2 : Q) : MockResponse :=
  {| risk_level := if Qle_bool r1 (1 # 2) then "low" else "medium";
     confidence := Qfloor (r2 * 30) + 70;
     reasoning := "Image analysis completed. No obvious phishing indicators detected.";
     detected_elements :=
       [ {| element_type := "logo"; description := "Brand logo detected";
            element_confidence := 85 |};
         {| element_type := "text"; description := "Text content found";
            element_confidence := 92 |} ];
     recommendations :=
       [ "Verify the source of the image";
         "Check for any suspicious URLs in the image";
         "Be cautious with images from unknown sources" ]%string |}.

(** What [setAnalysis] was last given: the data of a server response,
    or the demo response. *)
Inductive Analysis (D : Type) :=
| server_data (data : D)
| demo (mock : MockResponse).
Arguments server_data {D} data.
Arguments demo {D} mock.

Inductive Toast :=
| toast_error (text : string)
| toast_success (text : string).

Record View (F D : Type) := {
  selectedFile : option F;
  analysis : option (Analysis D);
  loading : bool
}.
Arguments selectedFile {F D} _.
Arguments analysis {F D} _.
Arguments loading {F D} _.

(** [analyzeImage], once its promise has settled.  [server] is how
    the request would settle; calling a member the [api] object does
    not have throws a TypeError inside the [try]. *)
Definition analyzeImage {F D : Type} (server : Settled D) (r1 r2 : Q)
           (v : View F D) : View F D * list Toast :=
  match selectedFile v with
  | None => (v, [toast_error "Please select an image first"])
  | Some _ =>
      let response :=
        if api_has "post" then server
        else Rejected "api.post is not a function" in
      match response with
      | Fulfilled data =>
          ({| selectedFile := selectedFile v;
              analysis := Some (server_data data);
              loading := false |},
           [toast_success "Image analysis completed successfully!"])
      | Rejected _ =>
          ({| selectedFile := selectedFile v;
              analysis := Some (demo (mockResponse r1 r2));
              loading := false |},
           [toast_success "Image analysis completed (demo mode)"])
      end
  end.

End ImageAnalyzer.
Import ImageAnalyzer.

(** ** Basic facts about the JavaScript comparisons *)

Lemma strict_eq_true (a b : option string) : strict_eq a b = true <-> a = b.
Proof.
  destruct a as [x|], b as [y|]; simpl; split; intro H;
    try discriminate; try reflexivity.
  - apply String.eqb_eq in H. now subst.
  - inversion H. apply String.eqb_refl.
Qed.

Lemma num_eq_refl (i : Q) : num_eq i i = true.
Proof. unfold num_eq. apply Qeq_bool_iff. reflexivity. Qed.

Lemma num_eq_sym (i j : Q) : num_eq i j = num_eq j i.
Proof.
  unfold num_eq.
  destruct (Qeq_bool i j) eqn:H1, (Qeq_bool j i) eqn:H2; try reflexivity.
  - apply Qeq_bool_iff in H1. symmetry in H1. apply Qeq_bool_iff in H1. congruence.
  - apply Qeq_bool_iff in H2. symmetry in H2. apply Qeq_bool_iff in H2. congruence.
Qed.

Lemma num_eq_trans (i j k : Q) :
  num_eq i j = true -> num_eq j k = true -> num_eq i k = true.
Proof.
  unfold num_eq. intros H1 H2. apply Qeq_bool_iff in H1, H2.
  apply Qeq_bool_iff. now rewrite H1.
Qed.

Lemma truthy_find_existsb {A : Type} (f : A -> bool) (l : list A) :
  truthy (find f l) = existsb f l.
Proof.
  induction l as [|x l IH]; simpl; [reflexivity|].
  destruct (f x); simpl; [reflexivity | exact IH].
Qed.

Lemma in_firstn {A : Type} (n : nat) (l : list A) (x : A) :
  In x (firstn n l) -> In x l.
Proof.
  intros H. rewrite <- (firstn_skipn n l). apply in_or_app. now left.
Qed.

Lemma set_read_of_read (a : Alert) : read a = true -> set_read a = a.
Proof. destruct a; simpl; intros ->; reflexivity. Qed.

Lemma set_read_idem (a : Alert) : set_read (set_read a) = set_read a.
Proof. reflexivity. Qed.

(** ** The cap *)

Lemma add_not_duplicate (e : Env) (s : State) (p : Payload) :
  truthy (existingAlert e s (newAlert e p)) = false ->
  alertReducer e s (ADD_ALERT p)
  = {| alerts := firstn 100 (newAlert e p :: alerts s);
       unreadCount := unreadCount s + 1 |}.
Proof. intros H. unfold alertReducer. rewrite H. reflexivity. Qed.

Lemma add_duplicate (e : Env) (s : State) (p : Payload) :
  truthy (existingAlert e s (newAlert e p)) = true ->
  alertReducer e s (ADD_ALERT p) = s.
Proof. intros H. unfold alertReducer. rewrite H. reflexivity. Qed.

Lemma reducer_keeps_cap (e : Env) (s : State) (a : Action) :
  (length (alerts s) <= 100)%nat ->
  (length (alerts (alertReducer e s a)) <= 100)%nat.
Proof.
  intros H. destruct a as [p | i | | i | ]; unfold alertReducer; cbv zeta.
  - destruct (truthy _); [exact H|].
    cbn [alerts]. unfold slice0. apply firstn_le_length.
  - cbn [alerts]. etransitivity; [apply filter_length_le | exact H].
  - apply Nat.le_0_l.
  - cbn [alerts]. now rewrite length_map.
  - exact H.
Qed.

Lemma dispatch_all_keeps_cap (acts : list (Env * Action)) (s : State) :
  (length (alerts s) <= 100)%nat ->
  (length (alerts (dispatch_all s acts)) <= 100)%nat.
Proof.
  revert s. induction acts as [|[e a] acts IH]; intros s H; simpl.
  - exact H.
  - apply IH. now apply reducer_keeps_cap.
Qed.

(** C2. From a store holding at most 100 alerts (the empty store in
    particular), whatever actions are dispatched in whatever order, the
    store holds at most 100 alerts; and a further add is either dropped
    as a duplicate or keeps the new alert followed by the 99 newest of
    the old ones, so that the length is the smaller of 100 and the old
    length plus one: exactly 100 when the insertion would exceed the
    cap, the oldest alerts at the tail being the ones dropped. *)
Theorem C2_alerts_capped_at_100
  (s0 : State) (acts : list (Env * Action)) (e : Env) (p : Payload)
  (Hcap : (length (alerts s0) <= 100)%nat) :
  let s := dispatch_all s0 acts in
  let s' := alertReducer e s (ADD_ALERT p) in
  (length (alerts s) <= 100)%nat
  /\ (length (alerts s') <= 100)%nat
  /\ (if truthy (existingAlert e s (newAlert e p)) then s' = s
      else alerts s' = newAlert e p :: firstn 99 (alerts s)
           /\ length (alerts s') = Nat.min 100 (S (length (alerts s)))).
Proof.
  intros s s'.
  assert (Hs : (length (alerts s) <= 100)%nat)
    by (apply dispatch_all_keeps_cap; exact Hcap).
  split; [exact Hs|]. split; [now apply reducer_keeps_cap|].
  subst s'. destruct (truthy _) eqn:Hd.
  - now apply add_duplicate.
  - rewrite (add_not_duplicate _ _ _ Hd). cbn [alerts]. split.
    + change (firstn 100 (newAlert e p :: alerts s))
        with (newAlert e p :: firstn 99 (alerts s)). reflexivity.
    + rewrite length_firstn. reflexivity.
Qed.

(** The cap at work: the store filled by 100 adds receives one more. *)
Lemma C2_alerts_capped_at_100_witness :
  (length (alerts emptyStore) <= 100)%nat
  /\ let s := dispatch_all emptyStore (sample_adds 100) in
     let e := at_time 5000 in
     let p := sample_candidate 100 in
     let s' := alertReducer e s (ADD_ALERT p) in
     (length (alerts s) <= 100)%nat
     /\ (length (alerts s') <= 100)%nat
     /\ (if truthy (existingAlert e s (newAlert e p)) then s' = s
         else alerts s' = newAlert e p :: firstn 99 (alerts s)
              /\ length (alerts s') = Nat.min 100 (S (length (alerts s)))).
Proof.
  split.
  - apply Nat.le_0_l.
  - apply (C2_alerts_capped_at_100 emptyStore (sample_adds 100)
             (at_time 5000) (sample_candidate 100)).
    apply Nat.le_0_l.
Defined.

(** ** The unread counter against a full recount *)

Lemma unread_recount_app (l1 l2 : list Alert) :
  unread_recount (l1 ++ l2) = unread_recount l1 + unread_recount l2.
Proof.
  unfold unread_recount. rewrite filter_app, length_app. lia.
Qed.

Lemma full_store_split (l : list Alert) (a : Alert) :
  length l = 100%nat -> nth_error l 99 = Some a -> l = firstn 99 l ++ [a].
Proof.
  intros Hlen Hnth.
  rewrite <- (firstn_skipn 99 l) at 1. f_equal.
  pose proof (length_skipn 99 l) as Hs. rewrite Hlen in Hs.
  pose proof (nth_error_skipn 99 l 0) as Hn.
  change (99 + 0)%nat with 99%nat in Hn. rewrite Hnth in Hn.
  destruct (skipn 99 l) as [|x [|y t]]; cbn in Hs, Hn; try discriminate.
  now injection Hn as ->.
Qed.

(** The cap path in general: on a full store whose counter is right
    and whose oldest alert is unread, storing one more unread alert
    leaves the counter one above the recount. *)
Lemma add_at_cap_overcounts (e : Env) (s : State) (p : Payload) (oldest : Alert) :
  length (alerts s) = 100%nat ->
  nth_error (alerts s) 99 = Some oldest -> read oldest = false ->
  unreadCount s = unread_recount (alerts s) ->
  p_read p = None ->
  existingAlert e s (newAlert e p) = None ->
  let s' := alertReducer e s (ADD_ALERT p) in
  unreadCount s' = unread_recount (alerts s') + 1.
Proof.
  intros Hlen Hnth Hunread Hinv Hp Hnew s'. subst s'.
  rewrite (add_not_duplicate e s p) by (now rewrite Hnew).
  cbn [alerts unreadCount]. rewrite Hinv.
  change (firstn 100 (newAlert e p :: alerts s))
    with ([newAlert e p] ++ firstn 99 (alerts s)).
  rewrite (full_store_split _ _ Hlen Hnth) at 1.
  rewrite !unread_recount_app.
  unfold unread_recount at 2 3. cbn [filter].
  unfold newAlert at 1; cbn [read]. rewrite Hp, Hunread.
  cbn [or_default negb length app].
  set (k := length (filter (fun a => negb (read a)) (firstn 99 (alerts s)))).
  lia.
Qed.

(** C1. Adding 101 distinct unread candidates to the empty store leaves
    100 alerts, all unread, while [unreadCount] is 101: the slice that
    enforces the cap drops the oldest alert without taking its unread
    contribution back, unlike [REMOVE_ALERT]. *)
Theorem C1_cap_eviction_leaves_unreadCount_stale :
  let s := dispatch_all emptyStore (sample_adds 101) in
  length (alerts s) = 100%nat
  /\ unread_recount (alerts s) = 100
  /\ unreadCount s = 101.
Proof. vm_compute. repeat split; reflexivity. Qed.

(** ** markAsRead *)

Lemma mark_map_marked (i : Q) (l : list Alert) :
  Forall2 (marked i) l
          (map (fun a => if num_eq (id a) i then set_read a else a) l).
Proof.
  induction l as [|a l IH]; simpl; constructor; [|exact IH].
  unfold marked. destruct (num_eq (id a) i); simpl.
  - rewrite orb_true_r. repeat split.
  - rewrite orb_false_r. repeat split.
Qed.

Lemma mark_map_noop (i : Q) (l : list Alert) :
  existsb (unread_with_id i) l = false ->
  map (fun a => if num_eq (id a) i then set_read a else a) l = l.
Proof.
  induction l as [|a l IH]; simpl; intros H; [reflexivity|].
  apply orb_false_iff in H. destruct H as [Ha Hl].
  rewrite (IH Hl). f_equal.
  unfold unread_with_id in Ha.
  destruct (num_eq (id a) i); [|reflexivity].
  simpl in Ha. apply negb_false_iff in Ha. now apply set_read_of_read.
Qed.

Lemma mark_map_all_read (i : Q) (l : list Alert) :
  existsb (unread_with_id i)
          (map (fun a => if num_eq (id a) i then set_read a else a) l) = false.
Proof.
  induction l as [|a l IH]; simpl; [reflexivity|].
  rewrite IH, orb_false_r. unfold unread_with_id.
  destruct (num_eq (id a) i) eqn:E; simpl.
  - apply andb_false_r.
  - now rewrite E.
Qed.

Lemma mark_noop (e : Env) (s : State) (i : Q) :
  existsb (unread_with_id i) (alerts s) = false ->
  alertReducer e s (MARK_AS_READ i) = s.
Proof.
  intros H. unfold alertReducer; cbv zeta.
  rewrite truthy_find_existsb.
  change (fun alert : Alert => num_eq (id alert) i && negb (read alert))
    with (unread_with_id i).
  rewrite H, (mark_map_noop _ _ H). now destruct s.
Qed.

(** C6. [MARK_AS_READ i] keeps every alert in place and changes nothing
    but [read], which becomes true on the alerts with id [i]; when some
    alert with id [i] is unread the counter goes down by exactly 1, and
    otherwise (id absent, or already read) the state is unchanged;
    a second call with the same id changes nothing, so two calls lower
    the counter by at most 1 in total. *)
Theorem C6_markAsRead_idempotent (e e2 : Env) (s : State) (i : Q) :
  let s' := alertReducer e s (MARK_AS_READ i) in
  let s'' := alertReducer e2 s' (MARK_AS_READ i) in
  Forall2 (marked i) (alerts s) (alerts s')
  /\ (if existsb (unread_with_id i) (alerts s)
      then unreadCount s' = unreadCount s - 1
      else s' = s)
  /\ s'' = s'
  /\ unreadCount s - 1 <= unreadCount s'' <= unreadCount s.
Proof.
  intros s' s''.
  assert (H2 : s'' = s').
  { subst s''. apply mark_noop. subst s'. unfold alertReducer; cbv zeta.
    cbn [alerts]. apply mark_map_all_read. }
  assert (H1 : if existsb (unread_with_id i) (alerts s)
               then unreadCount s' = unreadCount s - 1 else s' = s).
  { destruct (existsb _ _) eqn:E.
    - subst s'. unfold alertReducer; cbv zeta. rewrite truthy_find_existsb.
      change (fun alert : Alert => num_eq (id alert) i && negb (read alert))
        with (unread_with_id i).
      now rewrite E.
    - subst s'. now apply mark_noop. }
  split; [apply mark_map_marked|]. split; [exact H1|]. split; [exact H2|].
  rewrite H2. destruct (existsb _ _); [lia|]. rewrite H1. lia.
Qed.

(** ** Fields carried by the candidate *)

Lemma existingAlert_none (e : Env) (s : State) (p : Payload) :
  existingAlert e s (newAlert e p) = None ->
  truthy (existingAlert e s (newAlert e p)) = false.
Proof. intros ->. reflexivity. Qed.

(** C10. A candidate that is not a duplicate is stored at the head with
    its own [id], [timestamp] and [read] when it carries them; the
    store's fresh id, current time and [read = false] are used only for
    the fields the candidate lacks.  Hence a candidate carrying the id
    of a retained alert leaves two alerts with that id in the store, and
    a candidate carrying [read: true] is stored already read. *)
Theorem C10_candidate_fields_override_defaults
  (e : Env) (s : State) (p : Payload)
  (Hnew : existingAlert e s (newAlert e p) = None) :
  exists r,
    alerts (alertReducer e s (ADD_ALERT p)) = r :: firstn 99 (alerts s)
    /\ (forall i, p_id p = Some i -> id r = i)
    /\ (forall t, p_timestamp p = Some t -> timestamp r = t)
    /\ (forall b, p_read p = Some b -> read r = b)
    /\ (p_id p = None -> id r = (inject_Z (now e) + random e)%Q)
    /\ (p_timestamp p = None -> timestamp r = now e)
    /\ (p_read p = None -> read r = false)
    /\ (forall a, In a (firstn 99 (alerts s)) -> p_id p = Some (id a) ->
        ~ NoDup (map id (alerts (alertReducer e s (ADD_ALERT p))))).
Proof.
  exists (newAlert e p).
  rewrite (add_not_duplicate _ _ _ (existingAlert_none _ _ _ Hnew)).
  cbn [alerts].
  change (firstn 100 (newAlert e p :: alerts s))
    with (newAlert e p :: firstn 99 (alerts s)).
  split; [reflexivity|].
  unfold newAlert; cbn [id timestamp read].
  repeat split; try (intros x Hx; rewrite Hx; reflexivity);
    try (intros Hx; rewrite Hx; reflexivity).
  intros a Ha Hid Hnd. rewrite Hid in Hnd. cbn [map or_default] in Hnd.
  inversion Hnd as [|x l Hnotin _]; subst.
  apply Hnotin. apply in_map_iff. exists a. split; [reflexivity | exact Ha].
Qed.

(** A pre-read candidate reusing the id of the stored alert. *)
Lemma C10_candidate_fields_override_defaults_witness :
  let e := at_time 2000 in
  let s := alertReducer (at_time 1000) emptyStore (ADD_ALERT (sample_candidate 0)) in
  let p := with_store_fields (Some (2001 # 2)) (Some 5) (Some true)
                             (sample_candidate 1) in
  existingAlert e s (newAlert e p) = None
  /\ exists r,
      alerts (alertReducer e s (ADD_ALERT p)) = r :: firstn 99 (alerts s)
      /\ (forall i, p_id p = Some i -> id r = i)
      /\ (forall t, p_timestamp p = Some t -> timestamp r = t)
      /\ (forall b, p_read p = Some b -> read r = b)
      /\ (p_id p = None -> id r = (inject_Z (now e) + random e)%Q)
      /\ (p_timestamp p = None -> timestamp r = now e)
      /\ (p_read p = None -> read r = false)
      /\ (forall a, In a (firstn 99 (alerts s)) -> p_id p = Some (id a) ->
          ~ NoDup (map id (alerts (alertReducer e s (ADD_ALERT p))))).
Proof.
  intros e s p. split.
  - reflexivity.
  - apply (C10_candidate_fields_override_defaults e s p). reflexivity.
Defined.

(** ** Candidates with missing fields *)

(** C9, as the specification states it, fails: a candidate with no
    kind, title, content or severity added to the empty store is stored
    and counted. *)
Lemma C9_malformed_candidate_is_stored :
  let e := at_time 1000 in
  malformed bare_candidate = true
  /\ fst (addAlert e bare_candidate emptyStore) <> emptyStore
  /\ alerts (fst (addAlert e bare_candidate emptyStore))
     = [newAlert e bare_candidate]
  /\ unreadCount (fst (addAlert e bare_candidate emptyStore)) = 1.
Proof.
  cbv zeta. split; [reflexivity|]. split; [discriminate|].
  split; reflexivity.
Qed.

(** C9, amended. [addAlert] does not validate: a candidate with a
    required field missing that is not a duplicate is stored at the
    head like any other, the missing fields staying undefined, and is
    counted as unread; the call returns nothing. *)
Theorem C9_add_does_not_validate
  (e : Env) (s : State) (p : Payload)
  (Hbad : malformed p = true)
  (Hnew : existingAlert e s (newAlert e p) = None) :
  let r := newAlert e p in
  let s' := fst (addAlert e p s) in
  alerts s' = r :: firstn 99 (alerts s)
  /\ unreadCount s' = unreadCount s + 1
  /\ type r = p_type p /\ title r = p_title p
  /\ content r = p_content p /\ severity r = p_severity p
  /\ snd (addAlert e p s) = tt.
Proof.
  intros r s'. subst s'. unfold addAlert. cbn [fst snd].
  rewrite (add_not_duplicate _ _ _ (existingAlert_none _ _ _ Hnew)).
  cbn [alerts unreadCount].
  change (firstn 100 (newAlert e p :: alerts s))
    with (newAlert e p :: firstn 99 (alerts s)).
  repeat split.
Qed.

Lemma C9_add_does_not_validate_witness :
  let e := at_time 1000 in
  let s := emptyStore in
  let p := bare_candidate in
  malformed p = true
  /\ existingAlert e s (newAlert e p) = None
  /\ let r := newAlert e p in
     let s' := fst (addAlert e p s) in
     alerts s' = r :: firstn 99 (alerts s)
     /\ unreadCount s' = unreadCount s + 1
     /\ type r = p_type p /\ title r = p_title p
     /\ content r = p_content p /\ severity r = p_severity p
     /\ snd (addAlert e p s) = tt.
Proof.
  intros e s p. split; [reflexivity|]. split; [reflexivity|].
  apply (C9_add_does_not_validate e s p); reflexivity.
Defined.

(** ** Reload *)

(** C5. The alerts written by the persistence effect are read back
    unchanged, but the initial state sets [unreadCount] to 0 whatever
    was loaded: after one unread alert is stored and the page reloaded,
    the recount is 1 and the counter 0. *)
Theorem C5_reload_resets_unreadCount :
  (forall s, alerts (initialState (persist s)) = alerts s
             /\ unreadCount (initialState (persist s)) = 0)
  /\ let s := alertReducer (at_time 1000) emptyStore
                           (ADD_ALERT (sample_candidate 0)) in
     let s' := initialState (persist s) in
     alerts s' = alerts s
     /\ unreadCount s = 1
     /\ unread_recount (alerts s') = 1
     /\ unreadCount s' = 0.
Proof.
  split.
  - intros s. split; reflexivity.
  - cbv zeta. repeat split; reflexivity.
Qed.

(** ** The daily cleanup *)

Lemma newAlert_as_payload (e : Env) (a : Alert) : newAlert e (as_payload a) = a.
Proof. destruct a; reflexivity. Qed.

Lemma readd_incl (e : Env) (l : list Alert) (s : State) (keep : list Alert) :
  incl (alerts s) keep -> incl l keep ->
  incl (alerts (dispatch_all s (map (fun alert => (e, ADD_ALERT (as_payload alert))) l)))
       keep.
Proof.
  revert s. induction l as [|a l IH]; intros s Hs Hl; [exact Hs|].
  cbn [map dispatch_all fold_left fst snd].
  apply IH.
  - unfold alertReducer; cbv zeta. destruct (truthy _); [exact Hs|].
    cbn [alerts]. rewrite newAlert_as_payload. unfold slice0.
    intros x Hx. apply in_firstn in Hx. destruct Hx as [<- | Hx].
    + apply Hl. now left.
    + now apply Hs.
  - intros x Hx. apply Hl. now right.
Qed.

(** What the cleanup does achieve: whatever is left after it was in the
    store before and is newer than thirty days. *)
Lemma cleanup_leaves_only_recent (e : Env) (s : State) (a : Alert) :
  In a (alerts (cleanup e s)) ->
  In a (alerts s) /\ thirtyDaysAgo e < timestamp a.
Proof.
  unfold cleanup; cbv zeta.
  destruct (Nat.ltb _ _) eqn:E; intros H.
  - change (dispatch_all s ((e, CLEAR_ALERTS) :: ?l))
      with (dispatch_all (alertReducer e s CLEAR_ALERTS) l) in H.
    apply (readd_incl e (recentAlerts e s) _ (recentAlerts e s)) in H.
    + apply filter_In in H. destruct H as [H1 H2].
      split; [exact H1 | now apply Z.ltb_lt].
    + intros x [].
    + apply incl_refl.
  - split; [exact H|].
    apply Nat.ltb_ge in E.
    assert (Hlen : length (recentAlerts e s) = length (alerts s)).
    { apply Nat.le_antisymm; [apply filter_length_le | exact E]. }
    unfold recentAlerts in Hlen.
    assert (Hall : forall l : list Alert,
               length (filter (fun alert => thirtyDaysAgo e <? timestamp alert) l)
               = length l ->
               forall x, In x l -> thirtyDaysAgo e < timestamp x).
    { induction l as [|y l IH]; intros Hl x Hx; [destruct Hx|].
      cbn [filter] in Hl.
      destruct (thirtyDaysAgo e <? timestamp y) eqn:Ey.
      - cbn [length] in Hl. injection Hl as Hl.
        destruct Hx as [<- | Hx]; [now apply Z.ltb_lt | now apply IH].
      - exfalso.
        pose proof (filter_length_le (fun alert => thirtyDaysAgo e <? timestamp alert) l).
        cbn [length] in Hl. lia. }
    now apply (Hall _ Hlen).
Qed.

(** C4. The cleanup run on a store holding, newest first, a read
    alert, an unread alert and a forty-day-old alert removes the old one
    but re-adds the two survivors through [ADD_ALERT]: they come back in
    reverse order and each is counted as unread, so the counter is 2
    with one unread alert.  On a store whose two recent alerts share
    kind and content, the re-add of the older one is dropped as a
    duplicate of the newer one. *)
Theorem C4_cleanup_readds_survivors :
  (let e := at_time (600000 + 40 * day) in
   let s' := cleanup e aged_store in
   length (survivors e aged_store) = 2%nat
   /\ alerts s' = rev (survivors e aged_store)
   /\ alerts s' <> survivors e aged_store
   /\ unread_recount (alerts s') = 1
   /\ unreadCount s' = 2)
  /\ (let e := at_time (70000 + 40 * day) in
      let s' := cleanup e repeated_store in
      length (survivors e repeated_store) = 2%nat
      /\ length (alerts s') = 1%nat).
Proof.
  split.
  - cbv zeta. split; [reflexivity|]. split; [reflexivity|].
    split; [|split; reflexivity].
    vm_compute. discriminate.
  - cbv zeta. split; reflexivity.
Qed.

(** ** The duplicate rule *)

Lemma add_unchanged_iff_duplicate (e : Env) (s : State) (p : Payload) :
  alertReducer e s (ADD_ALERT p) = s
  <-> truthy (existingAlert e s (newAlert e p)) = true.
Proof.
  split.
  - intros H. destruct (truthy _) eqn:E; [reflexivity|].
    rewrite (add_not_duplicate _ _ _ E) in H.
    apply (f_equal unreadCount) in H. cbn [unreadCount] in H. lia.
  - apply add_duplicate.
Qed.

Lemma isDuplicateOf_spec (e : Env) (p : Payload) (a : Alert) :
  isDuplicateOf e (newAlert e p) a = true
  <-> content a = p_content p /\ type a = p_type p
      /\ now e - 60000 < timestamp a.
Proof.
  unfold isDuplicateOf, newAlert; cbn [content type].
  rewrite !andb_true_iff, !strict_eq_true, Z.ltb_lt. tauto.
Qed.

Lemma duplicate_found_iff (e : Env) (s : State) (p : Payload) :
  truthy (existingAlert e s (newAlert e p)) = true
  <-> exists a, In a (alerts s) /\ content a = p_content p
                /\ type a = p_type p /\ now e - 60000 < timestamp a.
Proof.
  unfold existingAlert. rewrite truthy_find_existsb, existsb_exists.
  split; intros [a [Ha Hd]]; exists a; (split; [exact Ha|]);
    now apply isDuplicateOf_spec.
Qed.

(** C3, as the specification states it, fails in both directions.  A
    second add exactly 60 seconds after the first finds the stored
    alert within 60 seconds of now, yet is stored as a second alert;
    and an add is dropped because of an alert stamped an hour ahead of
    the clock, which is not within 60 seconds of now. *)
Lemma C3_window_is_one_sided_and_strict :
  (let e1 := at_time 1000 in
   let e2 := at_time 61000 in
   let p := sample_candidate 0 in
   let s1 := alertReducer e1 emptyStore (ADD_ALERT p) in
   existsb (duplicate_by_spec e2 p) (alerts s1) = true
   /\ alertReducer e2 s1 (ADD_ALERT p) <> s1
   /\ length (alerts (alertReducer e2 s1 (ADD_ALERT p))) = 2%nat)
  /\ (let e := at_time 1000 in
      let p := sample_candidate 0 in
      let ahead := with_store_fields None (Some 3601000) None p in
      let s1 := alertReducer e emptyStore (ADD_ALERT ahead) in
      alerts s1 = [newAlert e ahead]
      /\ existsb (duplicate_by_spec e p) (alerts s1) = false
      /\ alertReducer e s1 (ADD_ALERT p) = s1).
Proof.
  split; cbv zeta.
  - split; [reflexivity|]. split; [|reflexivity].
    vm_compute. discriminate.
  - repeat split; reflexivity.
Qed.

(** C3, amended. An add leaves the state unchanged if and only if some
    stored alert has the candidate's content and kind and a timestamp
    strictly later than 60 seconds before now (an alert exactly 60
    seconds old no longer counts, one stamped in the future does).
    Hence, for a candidate without a timestamp of its own whose first
    add is stored, a second add less than 60 seconds later changes
    nothing; and on the empty store a second add 60 seconds later or
    more stores a second alert. *)
Theorem C3_duplicate_rule
  (e1 e2 : Env) (s : State) (p : Payload)
  (Hts : p_timestamp p = None) :
  (alertReducer e1 s (ADD_ALERT p) = s
   <-> exists a, In a (alerts s) /\ content a = p_content p
                 /\ type a = p_type p /\ now e1 - 60000 < timestamp a)
  /\ (alertReducer e1 s (ADD_ALERT p) <> s ->
      now e2 - 60000 < now e1 ->
      dispatch_all s [(e1, ADD_ALERT p); (e2, ADD_ALERT p)]
      = alertReducer e1 s (ADD_ALERT p))
  /\ (now e1 <= now e2 - 60000 ->
      alerts (dispatch_all emptyStore [(e1, ADD_ALERT p); (e2, ADD_ALERT p)])
      = [newAlert e2 p; newAlert e1 p]).
Proof.
  split; [|split].
  - rewrite add_unchanged_iff_duplicate. apply duplicate_found_iff.
  - intros Hstored Hclose.
    cbn [dispatch_all fold_left fst snd].
    apply add_unchanged_iff_duplicate, duplicate_found_iff.
    assert (Hn : truthy (existingAlert e1 s (newAlert e1 p)) = false).
    { destruct (truthy _) eqn:E; [|reflexivity].
      exfalso. apply Hstored. now apply add_duplicate. }
    rewrite (add_not_duplicate _ _ _ Hn). cbn [alerts].
    exists (newAlert e1 p). split.
    + change (firstn 100 (newAlert e1 p :: alerts s))
        with (newAlert e1 p :: firstn 99 (alerts s)). now left.
    + unfold newAlert; cbn [content type timestamp]. rewrite Hts.
      cbn [or_default]. repeat split. exact Hclose.
  - intros Hfar. cbn [dispatch_all fold_left fst snd].
    assert (H1 : alertReducer e1 emptyStore (ADD_ALERT p)
                 = {| alerts := [newAlert e1 p]; unreadCount := 1 |})
      by reflexivity.
    rewrite H1.
    assert (Hn : truthy (existingAlert e2 {| alerts := [newAlert e1 p]; unreadCount := 1 |}
                                       (newAlert e2 p)) = false).
    { unfold existingAlert. rewrite truthy_find_existsb. cbn [alerts existsb].
      rewrite orb_false_r. unfold isDuplicateOf.
      unfold newAlert at 5; cbn [timestamp]. rewrite Hts. cbn [or_default].
      replace (now e2 - 60000 <? now e1) with false
        by (symmetry; apply Z.ltb_ge; exact Hfar).
      apply andb_false_r. }
    rewrite (add_not_duplicate _ _ _ Hn). reflexivity.
Qed.

Lemma C3_duplicate_rule_witness :
  let e1 := at_time 1000 in
  let e2 := at_time 60999 in
  let s := emptyStore in
  let p := sample_candidate 0 in
  p_timestamp p = None
  /\ (alertReducer e1 s (ADD_ALERT p) = s
      <-> exists a, In a (alerts s) /\ content a = p_content p
                    /\ type a = p_type p /\ now e1 - 60000 < timestamp a)
  /\ (alertReducer e1 s (ADD_ALERT p) <> s ->
      now e2 - 60000 < now e1 ->
      dispatch_all s [(e1, ADD_ALERT p); (e2, ADD_ALERT p)]
      = alertReducer e1 s (ADD_ALERT p))
  /\ (now e1 <= now e2 - 60000 ->
      alerts (dispatch_all emptyStore [(e1, ADD_ALERT p); (e2, ADD_ALERT p)])
      = [newAlert e2 p; newAlert e1 p]).
Proof.
  intros e1 e2 s p. split; [reflexivity|].
  apply (C3_duplicate_rule e1 e2 s p). reflexivity.
Defined.

(** ** The promotion effect *)

Lemma highPriority_spec (a : Alert) :
  highPriority a = true
  <-> severity a = Some "critical"%string \/ severity a = Some "high"%string
      \/ type a = Some "phishing_detected"%string.
Proof.
  unfold highPriority. rewrite !orb_true_iff, !strict_eq_true. tauto.
Qed.

Lemma not_found_iff (i : Q) (visible : list Alert) :
  truthy (find (fun v => num_eq (id v) i) visible) = false
  <-> forall v, In v visible -> num_eq (id v) i = false.
Proof.
  rewrite truthy_find_existsb. split.
  - intros H v Hv. destruct (num_eq (id v) i) eqn:E; [|reflexivity].
    rewrite <- H. symmetry. apply existsb_exists. now exists v.
  - intros H. destruct (existsb _ _) eqn:E; [|reflexivity].
    apply existsb_exists in E. destruct E as [v [Hv Hv']].
    rewrite (H v Hv) in Hv'. discriminate.
Qed.

Lemma newAlerts_In (al visible : list Alert) (a : Alert) :
  In a (newAlerts al visible)
  <-> In a al /\ read a = false
      /\ (forall v, In v visible -> num_eq (id v) (id a) = false)
      /\ highPriority a = true.
Proof.
  unfold newAlerts. rewrite filter_In, !andb_true_iff, !negb_true_iff.
  rewrite not_found_iff. tauto.
Qed.

Lemma filter_nil_iff {A : Type} (f : A -> bool) (l : list A) :
  filter f l = [] <-> forall x, In x l -> f x = false.
Proof.
  induction l as [|y l IH]; simpl.
  - split; [intros _ x [] | reflexivity].
  - destruct (f y) eqn:E; split.
    + discriminate.
    + intros H. rewrite (H y) in E; [discriminate | now left].
    + intros H x [<- | Hx]; [exact E | now apply IH].
    + intros H. apply IH. intros x Hx. apply H. now right.
Qed.

Lemma promotionEffect_visible (e : Env) (al : list Alert) (p : Presenter) :
  visibleAlerts (promotionEffect e al p)
  = visibleAlerts p ++ newAlerts al (visibleAlerts p).
Proof.
  unfold promotionEffect; cbv zeta.
  destruct (newAlerts al (visibleAlerts p)) as [|x l] eqn:E.
  - cbn. now rewrite app_nil_r.
  - reflexivity.
Qed.

Lemma promotionEffect_settings (e : Env) (al : list Alert) (p : Presenter) :
  autoDismiss (promotionEffect e al p) = autoDismiss p
  /\ dismissTimeout (promotionEffect e al p) = dismissTimeout p.
Proof.
  unfold promotionEffect; cbv zeta.
  destruct (Nat.ltb _ _); split; reflexivity.
Qed.

Lemma no_second_promotion (al visible : list Alert) :
  newAlerts al (visible ++ newAlerts al visible) = [].
Proof.
  unfold newAlerts at 1. apply filter_nil_iff. intros a Ha.
  destruct (read a) eqn:Er; [reflexivity|].
  destruct (highPriority a) eqn:Eh; [|apply andb_false_r].
  cbn [negb andb]. rewrite andb_true_r. apply negb_false_iff.
  destruct (truthy (find (fun v => num_eq (id v) (id a)) visible)) eqn:Ev.
  - rewrite truthy_find_existsb in *. rewrite existsb_app, Ev. reflexivity.
  - rewrite truthy_find_existsb, existsb_app. apply orb_true_iff. right.
    apply existsb_exists. exists a. split; [|apply num_eq_refl].
    apply newAlerts_In. repeat split; try assumption.
    now apply not_found_iff.
Qed.

Lemma rerender_highPriority (e : Env) (sys : System) :
  all_highPriority sys -> all_highPriority (rerender e sys).
Proof.
  unfold all_highPriority, rerender; cbn [presenter store].
  intros H v. rewrite promotionEffect_visible, in_app_iff.
  intros [Hv | Hv]; [now apply H|].
  now apply newAlerts_In in Hv.
Qed.

Lemma dismiss_highPriority (e : Env) (i : Q) (sys : System) :
  all_highPriority sys -> all_highPriority (dismiss e i sys).
Proof.
  intros H. unfold dismiss, dismissNotification.
  apply rerender_highPriority. unfold all_highPriority; cbn [presenter visibleAlerts].
  intros v Hv. apply filter_In in Hv. now apply H.
Qed.

Lemma fold_dismiss_highPriority (e : Env) (ts : list Timer) (sys : System) :
  all_highPriority sys ->
  all_highPriority (fold_left (fun s t => dismiss e (alertId t) s) ts sys).
Proof.
  revert sys. induction ts as [|t ts IH]; intros sys H; [exact H|].
  cbn [fold_left]. apply IH. now apply dismiss_highPriority.
Qed.

Lemma handle_highPriority (sys : System) (ev : Env * Event) :
  all_highPriority sys -> all_highPriority (handle sys ev).
Proof.
  intros H. destruct ev as [e [ | a | i | ]]; unfold handle; cbn [fst snd].
  - now apply rerender_highPriority.
  - apply rerender_highPriority. exact H.
  - now apply dismiss_highPriority.
  - unfold fire_due. apply fold_dismiss_highPriority. exact H.
Qed.

Lemma run_highPriority (evs : list (Env * Event)) (sys : System) :
  all_highPriority sys -> all_highPriority (run sys evs).
Proof.
  revert sys. induction evs as [|ev evs IH]; intros sys H; [exact H|].
  cbn [run fold_left]. apply IH. now apply handle_highPriority.
Qed.

Lemma initialSystem_highPriority (st : Storage) :
  all_highPriority (initialSystem st).
Proof. intros v []. Qed.

(** C7. The promotion effect promotes an alert of the store exactly
    when it is unread, no visible notification has its id, and its
    severity is critical or high or its kind is phishing_detected; the
    promoted alerts are appended to the visible set, and running the
    effect again on the same alerts promotes nothing.  Hence, whatever
    events the page has handled since it was loaded, a system
    notification of severity info is not in the visible set, although
    adding it stores it unread and raises the unread counter. *)
Theorem C7_promotion_rule
  (e : Env) (al : list Alert) (p : Presenter) (a : Alert)
  (st : Storage) (evs : list (Env * Event))
  (t c : string) (d : Details) :
  let cand := createSystemAlert t c "info" d in
  let r := newAlert e cand in
  let sys := run (initialSystem st) evs in
  let sys' := handle sys (e, Dispatch (ADD_ALERT cand)) in
  existingAlert e (store sys) r = None ->
  (In a (newAlerts al (visibleAlerts p))
   <-> In a al /\ read a = false
       /\ (forall v, In v (visibleAlerts p) -> num_eq (id v) (id a) = false)
       /\ (severity a = Some "critical"%string
           \/ severity a = Some "high"%string
           \/ type a = Some "phishing_detected"%string))
  /\ visibleAlerts (promotionEffect e al p)
     = visibleAlerts p ++ newAlerts al (visibleAlerts p)
  /\ newAlerts al (visibleAlerts (promotionEffect e al p)) = []
  /\ ~ In r (visibleAlerts (presenter sys))
  /\ In r (alerts (store sys'))
  /\ read r = false
  /\ unreadCount (store sys') = unreadCount (store sys) + 1
  /\ ~ In r (visibleAlerts (presenter sys')).
Proof.
  intros cand r sys sys' Hnew.
  assert (Hr : highPriority r = false) by reflexivity.
  assert (Hsys : all_highPriority sys)
    by (apply run_highPriority, initialSystem_highPriority).
  assert (Hsys' : all_highPriority sys')
    by (apply handle_highPriority; exact Hsys).
  split; [rewrite newAlerts_In, highPriority_spec; reflexivity|].
  split; [apply promotionEffect_visible|].
  split; [rewrite promotionEffect_visible; apply no_second_promotion|].
  split; [intros H; apply Hsys in H; congruence|].
  assert (Hst : store sys' = alertReducer e (store sys) (ADD_ALERT cand))
    by reflexivity.
  rewrite Hst, (add_not_duplicate _ _ _ (existingAlert_none _ _ _ Hnew)).
  cbn [alerts unreadCount].
  split; [|split; [reflexivity|split; [reflexivity|]]].
  - change (firstn 100 (newAlert e cand :: alerts (store sys)))
      with (r :: firstn 99 (alerts (store sys))). now left.
  - intros H; apply Hsys' in H; congruence.
Qed.

Lemma C7_promotion_rule_witness :
  let e := at_time 1000 in
  let al : list Alert := [] in
  let p := initialPresenter in
  let a := newAlert e (sample_candidate 0) in
  let cand := createSystemAlert "notice" "disk almost full" "info" [] in
  let r := newAlert e cand in
  let sys := run (initialSystem absent) [] in
  let sys' := handle sys (e, Dispatch (ADD_ALERT cand)) in
  existingAlert e (store sys) r = None
  /\ (In a (newAlerts al (visibleAlerts p))
      <-> In a al /\ read a = false
          /\ (forall v, In v (visibleAlerts p) -> num_eq (id v) (id a) = false)
          /\ (severity a = Some "critical"%string
              \/ severity a = Some "high"%string
              \/ type a = Some "phishing_detected"%string))
  /\ visibleAlerts (promotionEffect e al p)
     = visibleAlerts p ++ newAlerts al (visibleAlerts p)
  /\ newAlerts al (visibleAlerts (promotionEffect e al p)) = []
  /\ ~ In r (visibleAlerts (presenter sys))
  /\ In r (alerts (store sys'))
  /\ read r = false
  /\ unreadCount (store sys') = unreadCount (store sys) + 1
  /\ ~ In r (visibleAlerts (presenter sys')).
Proof.
  intros e al p a cand r sys sys'. split; [reflexivity|].
  apply (C7_promotion_rule e al p a absent [] "notice" "disk almost full" []).
  reflexivity.
Defined.

(** ** Dismissal and the auto-dismiss timers *)

Lemma dismiss_store (e : Env) (j : Q) (sys : System) :
  store (dismiss e j sys) = alertReducer e (store sys) (MARK_AS_READ j).
Proof. reflexivity. Qed.

Lemma dismiss_log (e : Env) (j : Q) (sys : System) :
  log (dismiss e j sys) = log sys ++ [MARK_AS_READ j].
Proof. reflexivity. Qed.

Lemma dismiss_visible (e : Env) (j : Q) (sys : System) :
  visibleAlerts (presenter (dismiss e j sys))
  = filter (fun alert => negb (num_eq (id alert) j)) (visibleAlerts (presenter sys))
    ++ newAlerts (alerts (alertReducer e (store sys) (MARK_AS_READ j)))
         (filter (fun alert => negb (num_eq (id alert) j))
                 (visibleAlerts (presenter sys))).
Proof.
  unfold dismiss, dismissNotification, rerender; cbn [presenter store].
  now rewrite promotionEffect_visible.
Qed.

Lemma mark_In (e : Env) (s : State) (j : Q) (a' : Alert) :
  In a' (alerts (alertReducer e s (MARK_AS_READ j))) ->
  exists a, In a (alerts s)
            /\ a' = if num_eq (id a) j then set_read a else a.
Proof.
  unfold alertReducer; cbv zeta; cbn [alerts]. intros H.
  apply in_map_iff in H. destruct H as [a [Ha Hin]]. now exists a.
Qed.

Lemma mark_In_fwd (e : Env) (s : State) (j : Q) (a : Alert) :
  In a (alerts s) ->
  In (if num_eq (id a) j then set_read a else a)
     (alerts (alertReducer e s (MARK_AS_READ j))).
Proof.
  unfold alertReducer; cbv zeta; cbn [alerts]. intros H.
  apply in_map_iff. now exists a.
Qed.

Lemma mark_keeps_read (e : Env) (s : State) (i j : Q) :
  (forall a, In a (alerts s) -> num_eq (id a) i = true -> read a = true) ->
  forall a, In a (alerts (alertReducer e s (MARK_AS_READ j))) ->
            num_eq (id a) i = true -> read a = true.
Proof.
  intros H a' Ha' Hid. apply mark_In in Ha'. destruct Ha' as [a [Ha ->]].
  destruct (num_eq (id a) j); [reflexivity | now apply H].
Qed.

Lemma mark_reads (e : Env) (s : State) (i : Q) :
  forall a, In a (alerts (alertReducer e s (MARK_AS_READ i))) ->
            num_eq (id a) i = true -> read a = true.
Proof.
  intros a' Ha' Hid. apply mark_In in Ha'. destruct Ha' as [a [Ha ->]].
  destruct (num_eq (id a) i) eqn:E; [reflexivity | congruence].
Qed.

Lemma unread_promoted_other_id (i : Q) (al visible : list Alert) :
  (forall a, In a al -> num_eq (id a) i = true -> read a = true) ->
  forall v, In v (newAlerts al visible) -> num_eq (id v) i = false.
Proof.
  intros H v Hv. apply newAlerts_In in Hv. destruct Hv as [Hin [Hr _]].
  destruct (num_eq (id v) i) eqn:E; [|reflexivity].
  rewrite (H v Hin E) in Hr. discriminate.
Qed.

Lemma dismiss_settles (e : Env) (i : Q) (sys : System) :
  settled i (dismiss e i sys).
Proof.
  split.
  - intros v. rewrite dismiss_visible, in_app_iff. intros [Hv | Hv].
    + apply filter_In in Hv. now apply negb_true_iff.
    + revert v Hv. apply unread_promoted_other_id. apply mark_reads.
  - rewrite dismiss_store. apply mark_reads.
Qed.

Lemma dismiss_keeps_settled (e : Env) (i j : Q) (sys : System) :
  settled i sys -> settled i (dismiss e j sys).
Proof.
  intros [Hv Hs]. split.
  - intros v. rewrite dismiss_visible, in_app_iff. intros [Hin | Hin].
    + apply filter_In in Hin. now apply Hv.
    + revert v Hin. apply unread_promoted_other_id.
      now apply mark_keeps_read.
  - rewrite dismiss_store. now apply mark_keeps_read.
Qed.

Lemma fold_dismiss_keeps_settled (e : Env) (i : Q) (ts : list Timer) (sys : System) :
  settled i sys ->
  settled i (fold_left (fun s t => dismiss e (alertId t) s) ts sys).
Proof.
  revert sys. induction ts as [|t ts IH]; intros sys H; [exact H|].
  cbn [fold_left]. apply IH. now apply dismiss_keeps_settled.
Qed.

Lemma fold_dismiss_settles (e : Env) (t : Timer) (ts1 ts2 : list Timer) (sys : System) :
  settled (alertId t)
          (fold_left (fun s t' => dismiss e (alertId t') s) (ts1 ++ t :: ts2) sys).
Proof.
  rewrite fold_left_app. cbn [fold_left].
  apply fold_dismiss_keeps_settled, dismiss_settles.
Qed.

Lemma fold_dismiss_log (e : Env) (ts : list Timer) (sys : System) :
  log (fold_left (fun s t => dismiss e (alertId t) s) ts sys)
  = log sys ++ map (fun t => MARK_AS_READ (alertId t)) ts.
Proof.
  revert sys. induction ts as [|t ts IH]; intros sys; cbn [fold_left map].
  - now rewrite app_nil_r.
  - rewrite IH, dismiss_log, <- app_assoc. reflexivity.
Qed.

Lemma fold_dismiss_keeps_alert (e : Env) (r : Alert) (ts : list Timer) (sys : System) :
  In r (alerts (store sys)) \/ In (set_read r) (alerts (store sys)) ->
  let sys' := fold_left (fun s t => dismiss e (alertId t) s) ts sys in
  In r (alerts (store sys')) \/ In (set_read r) (alerts (store sys')).
Proof.
  revert sys. induction ts as [|t ts IH]; intros sys H; [exact H|].
  cbn [fold_left]. apply IH. rewrite dismiss_store.
  destruct H as [H | H];
    apply (mark_In_fwd e _ (alertId t)) in H.
  - destruct (num_eq (id r) (alertId t)); [now right | now left].
  - right. cbn [set_read id] in H.
    now destruct (num_eq (id r) (alertId t)).
Qed.

Lemma markAsRead_calls_app (i : Q) (l1 l2 : list Action) :
  markAsRead_calls i (l1 ++ l2)
  = (markAsRead_calls i l1 + markAsRead_calls i l2)%nat.
Proof. unfold markAsRead_calls. now rewrite filter_app, length_app. Qed.

Lemma markAsRead_calls_others (i : Q) (ts : list Timer) :
  (forall t, In t ts -> num_eq (alertId t) i = false) ->
  markAsRead_calls i (map (fun t => MARK_AS_READ (alertId t)) ts) = 0%nat.
Proof.
  intros H. unfold markAsRead_calls.
  replace (filter _ (map _ ts)) with (@nil Action); [reflexivity|].
  symmetry. apply filter_nil_iff. intros a Ha.
  apply in_map_iff in Ha. destruct Ha as [t [<- Ht]]. now apply H.
Qed.

(** Whatever the state of the page, once the timers due at the current
    clock reading have fired, the notification of every such timer is
    over. *)
Lemma timeout_settles (e : Env) (sys : System) (t : Timer) :
  In t (timers (presenter sys)) -> due t <= now e ->
  settled (alertId t) (handle sys (e, Timeout)).
Proof.
  intros Hin Hdue. unfold handle; cbn [fst snd]. unfold fire_due.
  assert (Hf : In t (filter (is_due e) (timers (presenter sys)))).
  { apply filter_In. split; [exact Hin|]. now apply Z.leb_le. }
  apply in_split in Hf. destruct Hf as [l1 [l2 ->]].
  apply fold_dismiss_settles.
Qed.

Lemma add_then_render_presenter
  (e : Env) (sys : System) (p : Payload) :
  let r := newAlert e p in
  autoDismiss (presenter sys) = true ->
  existingAlert e (store sys) r = None ->
  read r = false -> highPriority r = true ->
  (forall v, In v (visibleAlerts (presenter sys)) -> num_eq (id v) (id r) = false) ->
  let others := newAlerts (firstn 99 (alerts (store sys)))
                          (visibleAlerts (presenter sys)) in
  let t := now e + dismissTimeout (presenter sys) in
  alerts (store (handle sys (e, Dispatch (ADD_ALERT p))))
  = r :: firstn 99 (alerts (store sys))
  /\ log (handle sys (e, Dispatch (ADD_ALERT p))) = log sys
  /\ visibleAlerts (presenter (handle sys (e, Dispatch (ADD_ALERT p))))
     = visibleAlerts (presenter sys) ++ r :: others
  /\ timers (presenter (handle sys (e, Dispatch (ADD_ALERT p))))
     = timers (presenter sys) ++ timer_for t r :: map (timer_for t) others.
Proof.
  intros r Hauto Hnew Hread Hhigh Hvis others t.
  unfold handle; cbn [fst snd]. unfold rerender; cbn [store presenter log].
  rewrite (add_not_duplicate _ _ _ (existingAlert_none _ _ _ Hnew)).
  cbn [alerts].
  change (firstn 100 (newAlert e p :: alerts (store sys)))
    with (r :: firstn 99 (alerts (store sys))).
  assert (Hn : newAlerts (r :: firstn 99 (alerts (store sys)))
                         (visibleAlerts (presenter sys)) = r :: others).
  { unfold newAlerts; cbn [filter].
    apply not_found_iff in Hvis. rewrite Hread, Hvis, Hhigh. reflexivity. }
  split; [reflexivity|]. split; [reflexivity|].
  unfold promotionEffect; cbv zeta. rewrite Hn, Hauto.
  cbn [length Nat.ltb Nat.leb visibleAlerts timers map].
  split; reflexivity.
Qed.

Lemma rerender_settings (e : Env) (sys : System) :
  initial_settings sys -> initial_settings (rerender e sys).
Proof.
  unfold initial_settings, rerender; cbn [presenter].
  destruct (promotionEffect_settings e (alerts (store sys)) (presenter sys))
    as [-> ->].
  tauto.
Qed.

Lemma dismiss_settings (e : Env) (i : Q) (sys : System) :
  initial_settings sys -> initial_settings (dismiss e i sys).
Proof.
  intros H. unfold dismiss, dismissNotification.
  apply rerender_settings. exact H.
Qed.

Lemma fold_dismiss_settings (e : Env) (ts : list Timer) (sys : System) :
  initial_settings sys ->
  initial_settings (fold_left (fun s t => dismiss e (alertId t) s) ts sys).
Proof.
  revert sys. induction ts as [|t ts IH]; intros sys H; [exact H|].
  cbn [fold_left]. apply IH. now apply dismiss_settings.
Qed.

(** Whatever the page has handled since it was loaded, auto-dismiss is
    on and the timeout is 5000 ms. *)
Lemma run_keeps_initial_settings (st : Storage) (evs : list (Env * Event)) :
  initial_settings (run (initialSystem st) evs).
Proof.
  assert (H0 : initial_settings (initialSystem st)) by (split; reflexivity).
  revert H0. generalize (initialSystem st). 
  induction evs as [|[e ev] evs IH]; intros sys H; [exact H|].
  cbn [run fold_left]. apply IH.
  destruct ev as [ | a | i | ]; unfold handle; cbn [fst snd].
  - now apply rerender_settings.
  - apply rerender_settings. exact H.
  - now apply dismiss_settings.
  - unfold fire_due. apply fold_dismiss_settings. exact H.
Qed.

(** C8. On a page whose auto-dismiss settings are the initial ones, a
    critical phishing alert that is not a duplicate and whose id is
    fresh is, in the render that follows its add, in the visible set
    with one timer set for 5000 ms later.  When the timers due at that
    time fire, nothing with its id is visible any more, the stored
    alert is read, and the notification component has dispatched
    [MARK_AS_READ] for its id exactly once. *)
Theorem C8_critical_phishing_alert_auto_dismissed
  (e e' : Env) (sys : System) (c k : string) (d : Details) :
  let cand := createPhishingAlert c k (Some "critical"%string) d in
  let r := newAlert e cand in
  let sys1 := handle sys (e, Dispatch (ADD_ALERT cand)) in
  let sys2 := handle sys1 (e', Timeout) in
  autoDismiss (presenter sys) = true ->
  dismissTimeout (presenter sys) = 5000 ->
  existingAlert e (store sys) r = None ->
  (forall a, In a (alerts (store sys)) -> num_eq (id a) (id r) = false) ->
  (forall v, In v (visibleAlerts (presenter sys)) -> num_eq (id v) (id r) = false) ->
  (forall t, In t (timers (presenter sys)) -> num_eq (alertId t) (id r) = false) ->
  now e + 5000 <= now e' ->
  In r (visibleAlerts (presenter sys1))
  /\ In (timer_for (now e + 5000) r) (timers (presenter sys1))
  /\ markAsRead_calls (id r) (log sys1) = markAsRead_calls (id r) (log sys)
  /\ (forall v, In v (visibleAlerts (presenter sys2)) -> num_eq (id v) (id r) = false)
  /\ In (set_read r) (alerts (store sys2))
  /\ markAsRead_calls (id r) (log sys2) = S (markAsRead_calls (id r) (log sys)).
Proof.
  intros cand r sys1 sys2 Hauto Htimeout Hnew Hstore Hvis Htimers Hdue.
  destruct (add_then_render_presenter e sys cand Hauto Hnew eq_refl eq_refl Hvis)
    as [Hal [Hlog [Hv Ht]]].
  fold r in Hal, Hv, Ht. fold sys1 in Hal, Hlog, Hv, Ht.
  rewrite Htimeout in Ht.
  set (others := newAlerts (firstn 99 (alerts (store sys)))
                           (visibleAlerts (presenter sys))) in *.
  assert (Hothers : forall a, In a others -> num_eq (id a) (id r) = false).
  { intros a Ha. apply newAlerts_In in Ha. destruct Ha as [Ha _].
    apply Hstore. now apply in_firstn in Ha. }
  split; [rewrite Hv; apply in_or_app; right; now left|].
  split; [rewrite Ht; apply in_or_app; right; now left|].
  split; [now rewrite Hlog|].
  (* the timers that fire *)
  assert (Hfire :
    sys2 = fold_left (fun s t => dismiss e' (alertId t) s)
             (filter (is_due e') (timers (presenter sys))
              ++ timer_for (now e + 5000) r
                 :: filter (is_due e') (map (timer_for (now e + 5000)) others))
             {| store := store sys1; presenter := drop_due e' (presenter sys1);
                log := log sys1 |}).
  { subst sys2. unfold handle at 1; cbn [fst snd]. unfold fire_due.
    rewrite Ht, filter_app. cbn [filter].
    replace (is_due e' (timer_for (now e + 5000) r)) with true; [reflexivity|].
    symmetry. unfold is_due, timer_for; cbn [due]. now apply Z.leb_le. }
  assert (Hsettled : settled (id r) sys2).
  { rewrite Hfire.
    apply (fold_dismiss_settles e' (timer_for (now e + 5000) r)). }
  destruct Hsettled as [Hs1 Hs2].
  split; [exact Hs1|]. split.
  - assert (Hkeep : In r (alerts (store sys2)) \/ In (set_read r) (alerts (store sys2))).
    { rewrite Hfire. apply fold_dismiss_keeps_alert. cbn [store].
      left. rewrite Hal. now left. }
    destruct Hkeep as [Hk | Hk]; [|exact Hk].
    exfalso. specialize (Hs2 r Hk (num_eq_refl _)). discriminate.
  - rewrite Hfire, fold_dismiss_log. cbn [log]. rewrite Hlog.
    rewrite markAsRead_calls_app, map_app, markAsRead_calls_app. cbn [map].
    change (MARK_AS_READ (alertId (timer_for (now e + 5000) r))
            :: map (fun t => MARK_AS_READ (alertId t))
                   (filter (is_due e') (map (timer_for (now e + 5000)) others)))
      with ([MARK_AS_READ (id r)]
            ++ map (fun t => MARK_AS_READ (alertId t))
                   (filter (is_due e') (map (timer_for (now e + 5000)) others))).
    rewrite markAsRead_calls_app.
    rewrite markAsRead_calls_others.
    2:{ intros t Ht'. apply filter_In in Ht'. now apply Htimers. }
    rewrite markAsRead_calls_others.
    2:{ intros t Ht'. apply filter_In in Ht'. destruct Ht' as [Ht' _].
        apply in_map_iff in Ht'. destruct Ht' as [a [<- Ha]].
        now apply Hothers. }
    unfold markAsRead_calls at 2; cbn [filter].
    rewrite num_eq_refl. cbn [length]. lia.
Qed.

(** The scenario on a page that already shows another notification. *)
Lemma C8_critical_phishing_alert_auto_dismissed_witness :
  let e := at_time 1000 in
  let e' := at_time 6000 in
  let sys := page_with_warning in
  let cand := createPhishingAlert "http://paypa1.example" "URL"
                                  (Some "critical"%string) [] in
  let r := newAlert e cand in
  let sys1 := handle sys (e, Dispatch (ADD_ALERT cand)) in
  let sys2 := handle sys1 (e', Timeout) in
  (autoDismiss (presenter sys) = true
   /\ dismissTimeout (presenter sys) = 5000
   /\ existingAlert e (store sys) r = None
   /\ (forall a, In a (alerts (store sys)) -> num_eq (id a) (id r) = false)
   /\ (forall v, In v (visibleAlerts (presenter sys)) -> num_eq (id v) (id r) = false)
   /\ (forall t, In t (timers (presenter sys)) -> num_eq (alertId t) (id r) = false)
   /\ now e + 5000 <= now e')
  /\ In r (visibleAlerts (presenter sys1))
  /\ In (timer_for (now e + 5000) r) (timers (presenter sys1))
  /\ markAsRead_calls (id r) (log sys1) = markAsRead_calls (id r) (log sys)
  /\ (forall v, In v (visibleAlerts (presenter sys2)) -> num_eq (id v) (id r) = false)
  /\ In (set_read r) (alerts (store sys2))
  /\ markAsRead_calls (id r) (log sys2) = S (markAsRead_calls (id r) (log sys)).
Proof.
  intros e e' sys cand r sys1 sys2.
  assert (Hstore : forall a, In a (alerts (store sys)) -> num_eq (id a) (id r) = false)
    by (intros a [<- | []]; reflexivity).
  assert (Hvis : forall v, In v (visibleAlerts (presenter sys)) ->
                           num_eq (id v) (id r) = false)
    by (intros v [<- | []]; reflexivity).
  assert (Htimers : forall t, In t (timers (presenter sys)) ->
                              num_eq (alertId t) (id r) = false)
    by (intros t [<- | []]; reflexivity).
  assert (Hdue : now e + 5000 <= now e') by (vm_compute; discriminate).
  split.
  - repeat split; try reflexivity; assumption.
  - exact (C8_critical_phishing_alert_auto_dismissed
             e e' sys "http://paypa1.example" "URL" []
             eq_refl eq_refl eq_refl Hstore Hvis Htimers Hdue).
Defined.

(** * Further properties of the store *)

Lemma filter_all {A : Type} (f : A -> bool) (l : list A) :
  (forall x, In x l -> f x = true) -> filter f l = l.
Proof.
  induction l as [|x l IH]; intros H; cbn [filter]; [reflexivity|].
  rewrite (H x) by now left. f_equal. apply IH. intros y Hy. apply H. now right.
Qed.

Lemma find_none_all {A : Type} (f : A -> bool) (l : list A) :
  (forall x, In x l -> f x = false) -> find f l = None.
Proof.
  induction l as [|x l IH]; intros H; cbn [find]; [reflexivity|].
  rewrite (H x) by now left. apply IH. intros y Hy. apply H. now right.
Qed.

Lemma num_eq_false_trans (i j k : Q) :
  num_eq i j = true -> num_eq k i = false -> num_eq k j = false.
Proof.
  intros Hij Hki. destruct (num_eq k j) eqn:E; [|reflexivity].
  rewrite num_eq_sym in Hij.
  now rewrite (num_eq_trans k j i E Hij) in Hki.
Qed.

(** X1. Removing an id that no stored alert has changes nothing. *)
Theorem remove_absent_is_noop (e : Env) (s : State) (i : Q)
  (Habsent : forall a, In a (alerts s) -> num_eq (id a) i = false) :
  alertReducer e s (REMOVE_ALERT i) = s.
Proof.
  unfold alertReducer; cbv zeta.
  rewrite filter_all, (find_none_all _ _ Habsent).
  - now destruct s.
  - intros a Ha. now rewrite (Habsent a Ha).
Qed.

Lemma remove_absent_is_noop_witness :
  let e := at_time 2000 in
  let s := alertReducer (at_time 1000) emptyStore (ADD_ALERT (sample_candidate 0)) in
  let i := 7 # 1 in
  (forall a, In a (alerts s) -> num_eq (id a) i = false)
  /\ alertReducer e s (REMOVE_ALERT i) = s.
Proof.
  intros e s i.
  assert (H : forall a, In a (alerts s) -> num_eq (id a) i = false)
    by (intros a [<- | []]; reflexivity).
  split; [exact H | exact (remove_absent_is_noop e s i H)].
Defined.

(** X2. After [REMOVE_ALERT i] the store holds exactly the alerts whose id
    is not [i], as they were; a second removal of the same id changes
    nothing more. *)
Theorem remove_is_thorough_and_idempotent (e e2 : Env) (s : State) (i : Q) :
  let s' := alertReducer e s (REMOVE_ALERT i) in
  (forall a, In a (alerts s') <-> In a (alerts s) /\ num_eq (id a) i = false)
  /\ (length (alerts s') <= length (alerts s))%nat
  /\ unreadCount s - 1 <= unreadCount s' <= unreadCount s
  /\ alertReducer e2 s' (REMOVE_ALERT i) = s'.
Proof.
  intros s'.
  assert (Hin : forall a, In a (alerts s') <-> In a (alerts s) /\ num_eq (id a) i = false).
  { intros a. subst s'. unfold alertReducer; cbv zeta; cbn [alerts].
    rewrite filter_In, negb_true_iff. reflexivity. }
  split; [exact Hin|]. split; [|split].
  - subst s'. unfold alertReducer; cbv zeta; cbn [alerts]. apply filter_length_le.
  - subst s'. unfold alertReducer; cbv zeta; cbn [unreadCount].
    destruct (find _ _) as [r|]; [destruct (negb (read r))|]; lia.
  - apply remove_absent_is_noop. intros a Ha. now apply Hin in Ha.
Qed.

(** ** The counter on well-behaved runs *)

Lemma unread_recount_cons (a : Alert) (l : list Alert) :
  unread_recount (a :: l) = (if read a then 0 else 1) + unread_recount l.
Proof.
  unfold unread_recount. cbn [filter]. destruct (read a); cbn [negb length]; lia.
Qed.

Lemma distinct_ids_filter (f : Alert -> bool) (l : list Alert) :
  distinct_ids l -> distinct_ids (filter f l).
Proof.
  induction l as [|a l IH]; intros H; [exact I|].
  destruct H as [Ha Hl]. cbn [filter]. destruct (f a).
  - split; [|now apply IH].
    intros b Hb. apply filter_In in Hb. now apply Ha.
  - now apply IH.
Qed.

Lemma distinct_ids_mark (i : Q) (l : list Alert) :
  distinct_ids l ->
  distinct_ids (map (fun a => if num_eq (id a) i then set_read a else a) l).
Proof.
  induction l as [|a l IH]; intros H; [exact I|].
  destruct H as [Ha Hl]. cbn [map]. split; [|now apply IH].
  intros b Hb. apply in_map_iff in Hb. destruct Hb as [b0 [<- Hb0]].
  specialize (Ha b0 Hb0).
  destruct (num_eq (id b0) i), (num_eq (id a) i); exact Ha.
Qed.

Lemma remove_recount (i : Q) (l : list Alert) :
  distinct_ids l ->
  unread_recount (filter (fun a => negb (num_eq (id a) i)) l)
  = unread_recount l
    - match find (fun a => num_eq (id a) i) l with
      | Some r => if negb (read r) then 1 else 0
      | None => 0
      end.
Proof.
  induction l as [|a l IH]; intros H; [reflexivity|].
  destruct H as [Ha Hl]. cbn [filter find].
  destruct (num_eq (id a) i) eqn:E; cbn [negb].
  - rewrite filter_all.
    + rewrite unread_recount_cons. destruct (read a); cbn [negb]; lia.
    + intros b Hb. apply negb_true_iff.
      apply (num_eq_false_trans (id a) i (id b) E). now apply Ha.
  - rewrite !unread_recount_cons, (IH Hl). lia.
Qed.

Lemma mark_recount (i : Q) (l : list Alert) :
  distinct_ids l ->
  unread_recount (map (fun a => if num_eq (id a) i then set_read a else a) l)
  = unread_recount l - (if existsb (unread_with_id i) l then 1 else 0).
Proof.
  induction l as [|a l IH]; intros H; [reflexivity|].
  destruct H as [Ha Hl]. cbn [map existsb].
  rewrite !unread_recount_cons, (IH Hl).
  set (n := unread_recount l).
  change (unread_with_id i a) with (num_eq (id a) i && negb (read a)).
  destruct (num_eq (id a) i) eqn:E.
  - assert (Hnone : existsb (unread_with_id i) l = false).
    { destruct (existsb _ l) eqn:Ex; [|reflexivity].
      apply existsb_exists in Ex. destruct Ex as [b [Hb Hu]].
      unfold unread_with_id in Hu. apply andb_true_iff in Hu.
      destruct Hu as [Hu _].
      rewrite (num_eq_false_trans (id a) i (id b) E (Ha b Hb)) in Hu.
      discriminate. }
    rewrite Hnone.
    destruct (read a) eqn:Er; cbv [set_read read andb orb negb]; lia.
  - destruct (read a), (existsb (unread_with_id i) l);
      cbv [andb orb negb]; lia.
Qed.

Lemma reducer_keeps_consistent (e : Env) (s : State) (a : Action) :
  store_consistent s -> keeps_consistent e s a ->
  store_consistent (alertReducer e s a).
Proof.
  intros [Hc Hd] Hk. destruct a as [p | i | | i | ].
  - destruct Hk as [Hread [Hroom Hfresh]].
    destruct (truthy (existingAlert e s (newAlert e p))) eqn:E.
    + rewrite (add_duplicate _ _ _ E). now split.
    + rewrite (add_not_duplicate _ _ _ E).
      assert (Hall : firstn 100 (newAlert e p :: alerts s) = newAlert e p :: alerts s).
      { apply firstn_all2. cbn [length]. lia. }
      unfold store_consistent; cbn [alerts unreadCount]. rewrite Hall.
      split.
      * rewrite unread_recount_cons, Hread, Hc. lia.
      * split; assumption.
  - unfold alertReducer, store_consistent; cbv zeta; cbn [alerts unreadCount].
    split; [|now apply distinct_ids_filter].
    rewrite (remove_recount i _ Hd), Hc.
    destruct (find _ _) as [r|]; [destruct (negb (read r))|]; lia.
  - split; [reflexivity | exact I].
  - unfold alertReducer, store_consistent; cbv zeta; cbn [alerts unreadCount].
    split; [|now apply distinct_ids_mark].
    rewrite (mark_recount i _ Hd), Hc, truthy_find_existsb.
    change (fun alert : Alert => num_eq (id alert) i && negb (read alert))
      with (unread_with_id i).
    destruct (existsb _ _); lia.
  - now split.
Qed.

(** X3. On a run in which every stored add brings an unread alert with a
    fresh id into a store below the cap, the counter equals the number
    of unread alerts and ids stay distinct after every action, whatever
    removals, markings and clears are interleaved. *)
Theorem counter_right_on_well_behaved_runs
  (s : State) (acts : list (Env * Action))
  (Hs : store_consistent s)
  (Hacts : keeps_consistent_all s acts) :
  store_consistent (dispatch_all s acts).
Proof.
  revert s Hs Hacts. induction acts as [|[e a] acts IH]; intros s Hs Hacts.
  - exact Hs.
  - destruct Hacts as [Ha Hrest]. cbn [dispatch_all fold_left fst snd].
    apply IH; [now apply reducer_keeps_consistent | exact Hrest].
Qed.

Lemma counter_right_on_well_behaved_runs_witness :
  store_consistent emptyStore
  /\ keeps_consistent_all emptyStore small_run
  /\ store_consistent (dispatch_all emptyStore small_run).
Proof.
  assert (H0 : store_consistent emptyStore) by (split; [reflexivity | exact I]).
  assert (H1 : keeps_consistent_all emptyStore small_run).
  { cbn -[Nat.lt]. repeat split; try lia;
      intros x Hx;
      repeat (destruct Hx as [<- | Hx]; [reflexivity|]); destruct Hx. }
  split; [exact H0|]. split; [exact H1|].
  exact (counter_right_on_well_behaved_runs emptyStore small_run H0 H1).
Defined.

(** ** Add then remove *)

(** X4. Adding an unread alert under a fresh id to a store below the cap
    and then removing that id gives back the store as it was. *)
Theorem add_then_remove_restores (e e2 : Env) (s : State) (p : Payload)
  (Hnew : existingAlert e s (newAlert e p) = None)
  (Hread : read (newAlert e p) = false)
  (Hroom : (length (alerts s) < 100)%nat)
  (Hfresh : forall b, In b (alerts s) -> num_eq (id b) (id (newAlert e p)) = false) :
  alertReducer e2 (alertReducer e s (ADD_ALERT p))
               (REMOVE_ALERT (id (newAlert e p))) = s.
Proof.
  rewrite (add_not_duplicate _ _ _ (existingAlert_none _ _ _ Hnew)).
  assert (Hall : firstn 100 (newAlert e p :: alerts s) = newAlert e p :: alerts s).
  { apply firstn_all2. cbn [length]. lia. }
  rewrite Hall. unfold alertReducer; cbv zeta; cbn [alerts unreadCount filter find].
  rewrite num_eq_refl. cbn [negb]. rewrite Hread. cbn [negb].
  rewrite filter_all.
  - destruct s as [al n]. cbn [alerts unreadCount]. f_equal. lia.
  - intros b Hb. now rewrite (Hfresh b Hb).
Qed.

Lemma add_then_remove_restores_witness :
  let e := at_time 2000 in
  let e2 := at_time 3000 in
  let s := alertReducer (at_time 1000) emptyStore (ADD_ALERT (sample_candidate 0)) in
  let p := sample_candidate 1 in
  existingAlert e s (newAlert e p) = None
  /\ read (newAlert e p) = false
  /\ (length (alerts s) < 100)%nat
  /\ (forall b, In b (alerts s) -> num_eq (id b) (id (newAlert e p)) = false)
  /\ alertReducer e2 (alertReducer e s (ADD_ALERT p))
                  (REMOVE_ALERT (id (newAlert e p))) = s.
Proof.
  intros e e2 s p.
  assert (Hroom : (length (alerts s) < 100)%nat) by (cbn; lia).
  assert (Hfresh : forall b, In b (alerts s) ->
                             num_eq (id b) (id (newAlert e p)) = false)
    by (intros b [<- | []]; reflexivity).
  split; [reflexivity|]. split; [reflexivity|]. split; [exact Hroom|].
  split; [exact Hfresh|].
  exact (add_then_remove_restores e e2 s p eq_refl eq_refl Hroom Hfresh).
Defined.

(** ** Independent actions commute *)

Lemma num_eq_other (x i j : Q) :
  num_eq x j = true -> num_eq i j = false -> num_eq x i = false.
Proof.
  intros Hxj Hij. destruct (num_eq x i) eqn:E; [|reflexivity].
  rewrite num_eq_sym in E.
  now rewrite (num_eq_trans i x j E Hxj) in Hij.
Qed.

Lemma filter_map_mark (i j : Q) (l : list Alert) :
  filter (fun a => negb (num_eq (id a) j))
         (map (fun a => if num_eq (id a) i then set_read a else a) l)
  = map (fun a => if num_eq (id a) i then set_read a else a)
        (filter (fun a => negb (num_eq (id a) j)) l).
Proof.
  induction l as [|a l IH]; [reflexivity|].
  cbn [map filter].
  assert (Hid : id (if num_eq (id a) i then set_read a else a) = id a)
    by (now destruct (num_eq (id a) i)).
  rewrite Hid. destruct (negb (num_eq (id a) j)); cbn [map]; now rewrite IH.
Qed.

Lemma existsb_unread_filter (i j : Q) (l : list Alert) :
  num_eq i j = false ->
  existsb (unread_with_id i) (filter (fun a => negb (num_eq (id a) j)) l)
  = existsb (unread_with_id i) l.
Proof.
  intros Hij. induction l as [|a l IH]; [reflexivity|].
  cbn [filter existsb]. destruct (num_eq (id a) j) eqn:E; cbn [negb].
  - rewrite IH. unfold unread_with_id at 2.
    now rewrite (num_eq_other (id a) i j E Hij).
  - cbn [existsb]. now rewrite IH.
Qed.

Lemma find_id_mark (i j : Q) (l : list Alert) :
  num_eq i j = false ->
  match find (fun a => num_eq (id a) j)
             (map (fun a => if num_eq (id a) i then set_read a else a) l) with
  | Some r => Some (read r)
  | None => None
  end
  = match find (fun a => num_eq (id a) j) l with
    | Some r => Some (read r)
    | None => None
    end.
Proof.
  intros Hij. induction l as [|a l IH]; [reflexivity|].
  cbn [map find].
  assert (Hid : id (if num_eq (id a) i then set_read a else a) = id a)
    by (now destruct (num_eq (id a) i)).
  rewrite Hid. destruct (num_eq (id a) j) eqn:E; [|exact IH].
  now rewrite (num_eq_other (id a) i j E Hij).
Qed.

(** X5. Marking one id as read and removing another id give the same store
    in either order. *)
Theorem mark_and_remove_commute (e1 e2 e3 e4 : Env) (s : State) (i j : Q)
  (Hij : num_eq i j = false) :
  alertReducer e2 (alertReducer e1 s (MARK_AS_READ i)) (REMOVE_ALERT j)
  = alertReducer e4 (alertReducer e3 s (REMOVE_ALERT j)) (MARK_AS_READ i).
Proof.
  unfold alertReducer; cbv zeta; cbn [alerts unreadCount].
  rewrite filter_map_mark. f_equal.
  rewrite !truthy_find_existsb.
  change (fun alert : Alert => num_eq (id alert) i && negb (read alert))
    with (unread_with_id i).
  rewrite (existsb_unread_filter i j _ Hij).
  pose proof (find_id_mark i j (alerts s) Hij) as Hf.
  destruct (find _ (map _ _)) as [r|], (find _ (alerts s)) as [r'|];
    try discriminate; [|reflexivity].
  injection Hf as Hf. rewrite Hf.
  destruct (negb (read r')), (existsb _ _); lia.
Qed.

Lemma mark_and_remove_commute_witness :
  let s := dispatch_all emptyStore (sample_adds 3) in
  let i := 2001 # 2 in
  let j := 2003 # 2 in
  num_eq i j = false
  /\ alertReducer (at_time 5000) (alertReducer (at_time 4000) s (MARK_AS_READ i))
                  (REMOVE_ALERT j)
     = alertReducer (at_time 7000) (alertReducer (at_time 6000) s (REMOVE_ALERT j))
                    (MARK_AS_READ i).
Proof.
  intros s i j. split; [reflexivity|].
  exact (mark_and_remove_commute (at_time 4000) (at_time 5000) (at_time 6000)
                                 (at_time 7000) s i j eq_refl).
Defined.

(** * Further properties of the cleanup *)

Lemma filter_length_lt {A : Type} (f : A -> bool) (l : list A) (x : A) :
  In x l -> f x = false -> (length (filter f l) < length l)%nat.
Proof.
  induction l as [|y l IH]; intros Hin Hx; [destruct Hin|].
  cbn [filter]. destruct Hin as [-> | Hin].
  - rewrite Hx. cbn [length]. pose proof (filter_length_le f l). lia.
  - specialize (IH Hin Hx). destruct (f y); cbn [length]; lia.
Qed.




Lemma readd_all_reverses (e : Env) (l acc : list Alert) (n : Z) :
  (forall a, In a l -> timestamp a <= now e - 60000) ->
  (forall a, In a acc -> timestamp a <= now e - 60000) ->
  (length acc + length l <= 100)%nat ->
  dispatch_all {| alerts := acc; unreadCount := n |}
               (map (fun alert => (e, ADD_ALERT (as_payload alert))) l)
  = {| alerts := rev l ++ acc; unreadCount := n + Z.of_nat (length l) |}.
Proof.
  revert acc n. induction l as [|a l IH]; intros acc n Hl Hacc Hlen.
  - cbn [map dispatch_all fold_left rev app length]. f_equal. cbn. lia.
  - cbn [map dispatch_all fold_left fst snd].
    assert (Hn : truthy (existingAlert e {| alerts := acc; unreadCount := n |}
                                       (newAlert e (as_payload a))) = false).
    { unfold existingAlert. cbn [alerts]. rewrite find_none_all; [reflexivity|].
      intros b Hb. unfold isDuplicateOf.
      replace (now e - 60000 <? timestamp b) with false; [apply andb_false_r|].
      symmetry. apply Z.ltb_ge. now apply Hacc. }
    rewrite (add_not_duplicate _ _ _ Hn). cbn [alerts unreadCount].
    rewrite newAlert_as_payload.
    rewrite firstn_all2 by (cbn [length] in *; lia).
    change (fold_left (fun s ea => alertReducer (fst ea) s (snd ea))
                      (map (fun alert => (e, ADD_ALERT (as_payload alert))) l)
                      {| alerts := a :: acc; unreadCount := n + 1 |})
      with (dispatch_all {| alerts := a :: acc; unreadCount := n + 1 |}
                         (map (fun alert => (e, ADD_ALERT (as_payload alert))) l)).
    rewrite IH.
    + cbn [rev length]. rewrite <- app_assoc. cbn [app]. f_equal. lia.
    + intros b Hb. apply Hl. now right.
    + intros b [<- | Hb]; [apply Hl; now left | now apply Hacc].
    + cbn [length] in *. lia.
Qed.



(** * Further properties of the notification surface *)

Lemma rerender_timers (e : Env) (al : list Alert) (p : Presenter) :
  incl (timers p) (timers (promotionEffect e al p)).
Proof.
  unfold promotionEffect; cbv zeta.
  destruct (Nat.ltb _ _); [|apply incl_refl].
  cbn [timers]. destruct (autoDismiss p); [|apply incl_refl].
  apply incl_appl, incl_refl.
Qed.

Lemma dismiss_timers (e : Env) (i : Q) (sys : System) :
  incl (timers (presenter sys)) (timers (presenter (dismiss e i sys))).
Proof.
  unfold dismiss, dismissNotification, rerender; cbn [presenter store].
  eapply incl_tran; [|apply rerender_timers]. apply incl_refl.
Qed.

Lemma markAsRead_calls_member (t : Timer) (ts : list Timer) :
  In t ts ->
  (1 <= markAsRead_calls (alertId t) (map (fun t' => MARK_AS_READ (alertId t')) ts))%nat.
Proof.
  intros Hin. apply in_split in Hin. destruct Hin as [l1 [l2 ->]].
  rewrite map_app, markAsRead_calls_app. cbn [map].
  change (MARK_AS_READ (alertId t) :: map (fun t' => MARK_AS_READ (alertId t')) l2)
    with ([MARK_AS_READ (alertId t)] ++ map (fun t' => MARK_AS_READ (alertId t')) l2).
  rewrite markAsRead_calls_app.
  unfold markAsRead_calls at 2. cbn [filter]. rewrite num_eq_refl. cbn [length]. lia.
Qed.

(** X9. Pressing a button of a notification dismisses it for good,
    whatever the state of the page: afterwards nothing with its id is
    visible, every stored alert with that id is read, the store is the
    old one after [MARK_AS_READ], and exactly that one action was
    dispatched. *)
Theorem click_dismissal_is_final (e : Env) (sys : System) (i : Q) :
  let sys' := handle sys (e, Click i) in
  settled i sys'
  /\ store sys' = alertReducer e (store sys) (MARK_AS_READ i)
  /\ log sys' = log sys ++ [MARK_AS_READ i]
  /\ newAlerts (alerts (store sys')) (visibleAlerts (presenter sys')) = [].
Proof.
  intros sys'. subst sys'. unfold handle; cbn [fst snd].
  split; [apply dismiss_settles|]. split; [reflexivity|]. split; [reflexivity|].
  rewrite dismiss_visible, dismiss_store. apply no_second_promotion.
Qed.

(** X10. When the clock has reached a pending timer and the timers
    fire, the notification it was set for is over whatever the state of
    the page was (nothing with its id visible, every stored alert with
    that id read), and the notification component has dispatched one
    [MARK_AS_READ] per fired timer, in the order the timers were set,
    at least one of them for that id. *)
Theorem due_timers_dismiss_their_alerts (e : Env) (sys : System) (t : Timer)
  (Hin : In t (timers (presenter sys)))
  (Hdue : due t <= now e) :
  let sys' := handle sys (e, Timeout) in
  settled (alertId t) sys'
  /\ log sys'
     = log sys ++ map (fun t' => MARK_AS_READ (alertId t'))
                      (filter (is_due e) (timers (presenter sys)))
  /\ (markAsRead_calls (alertId t) (log sys) + 1
      <= markAsRead_calls (alertId t) (log sys'))%nat.
Proof.
  intros sys'.
  assert (Hlog : log sys'
     = log sys ++ map (fun t' => MARK_AS_READ (alertId t'))
                      (filter (is_due e) (timers (presenter sys)))).
  { subst sys'. unfold handle; cbn [fst snd]. unfold fire_due.
    now rewrite fold_dismiss_log. }
  split; [now apply timeout_settles|]. split; [exact Hlog|].
  rewrite Hlog, markAsRead_calls_app.
  assert (Hf : In t (filter (is_due e) (timers (presenter sys)))).
  { apply filter_In. split; [exact Hin | now apply Z.leb_le]. }
  pose proof (markAsRead_calls_member t _ Hf). lia.
Qed.

Lemma due_timers_dismiss_their_alerts_witness :
  let e := at_time 5500 in
  let sys := page_with_warning in
  let t := {| due := 5500; alertId := 1001 # 2 |} in
  (In t (timers (presenter sys)) /\ due t <= now e)
  /\ let sys' := handle sys (e, Timeout) in
     settled (alertId t) sys'
     /\ log sys'
        = log sys ++ map (fun t' => MARK_AS_READ (alertId t'))
                         (filter (is_due e) (timers (presenter sys)))
     /\ (markAsRead_calls (alertId t) (log sys) + 1
         <= markAsRead_calls (alertId t) (log sys'))%nat.
Proof.
  intros e sys t.
  assert (Hin : In t (timers (presenter sys))) by (left; reflexivity).
  assert (Hdue : due t <= now e) by (vm_compute; discriminate).
  split; [split; assumption|].
  exact (due_timers_dismiss_their_alerts e sys t Hin Hdue).
Defined.

(** X11. No timer is ever cancelled: a render, a store action or a
    press on a notification leaves every pending timer pending.  So
    when a notification is dismissed by hand and its timer fires later,
    [MARK_AS_READ] is dispatched for it a second time. *)
Theorem timers_are_never_cancelled
  (e1 e2 : Env) (sys : System) (t : Timer)
  (Hin : In t (timers (presenter sys)))
  (Hdue : due t <= now e2) :
  In t (timers (presenter (handle sys (e1, Mount))))
  /\ (forall a, In t (timers (presenter (handle sys (e1, Dispatch a)))))
  /\ (forall i, In t (timers (presenter (handle sys (e1, Click i)))))
  /\ let sys' := run sys [(e1, Click (alertId t)); (e2, Timeout)] in
     (markAsRead_calls (alertId t) (log sys) + 2
      <= markAsRead_calls (alertId t) (log sys'))%nat.
Proof.
  assert (Hclick : forall i, In t (timers (presenter (handle sys (e1, Click i))))).
  { intros i. unfold handle; cbn [fst snd]. now apply dismiss_timers. }
  split; [|split; [|split]].
  - unfold handle; cbn [fst snd]. unfold rerender; cbn [presenter].
    now apply rerender_timers.
  - intros a. unfold handle; cbn [fst snd]. unfold rerender; cbn [presenter store].
    now apply rerender_timers.
  - exact Hclick.
  - cbv zeta. cbn [run fold_left].
    set (sys1 := handle sys (e1, Click (alertId t))).
    assert (H1 : log sys1 = log sys ++ [MARK_AS_READ (alertId t)]) by reflexivity.
    assert (H2 : log (handle sys1 (e2, Timeout))
                 = log sys1 ++ map (fun t' => MARK_AS_READ (alertId t'))
                                   (filter (is_due e2) (timers (presenter sys1)))).
    { unfold handle; cbn [fst snd]. unfold fire_due. now rewrite fold_dismiss_log. }
    rewrite H2, H1, !markAsRead_calls_app.
    assert (Hf : In t (filter (is_due e2) (timers (presenter sys1)))).
    { apply filter_In. split; [apply Hclick | now apply Z.leb_le]. }
    pose proof (markAsRead_calls_member t _ Hf) as Hm.
    assert (Hone : markAsRead_calls (alertId t) [MARK_AS_READ (alertId t)] = 1%nat).
    { unfold markAsRead_calls. cbn [filter]. now rewrite num_eq_refl. }
    rewrite Hone. lia.
Qed.

Lemma timers_are_never_cancelled_witness :
  let e1 := at_time 2000 in
  let e2 := at_time 5500 in
  let sys := page_with_warning in
  let t := {| due := 5500; alertId := 1001 # 2 |} in
  (In t (timers (presenter sys)) /\ due t <= now e2)
  /\ In t (timers (presenter (handle sys (e1, Mount))))
  /\ (forall a, In t (timers (presenter (handle sys (e1, Dispatch a)))))
  /\ (forall i, In t (timers (presenter (handle sys (e1, Click i)))))
  /\ let sys' := run sys [(e1, Click (alertId t)); (e2, Timeout)] in
     (markAsRead_calls (alertId t) (log sys) + 2
      <= markAsRead_calls (alertId t) (log sys'))%nat.
Proof.
  intros e1 e2 sys t.
  assert (Hin : In t (timers (presenter sys))) by (left; reflexivity).
  assert (Hdue : due t <= now e2) by (vm_compute; discriminate).
  split; [split; assumption|].
  exact (timers_are_never_cancelled e1 e2 sys t Hin Hdue).
Defined.

(** * The alert feed *)

Lemma filteredAlerts_In (f : string) (u : bool) (l : list Alert) (x : Alert) :
  In x (filteredAlerts f u l) -> In x l /\ (u = true -> read x = false).
Proof.
  unfold filteredAlerts. intros H. apply filter_In in H. destruct H as [Hin Hp].
  split; [exact Hin|]. intros ->. cbn [andb] in Hp.
  destruct (read x); [discriminate | reflexivity].
Qed.

(** X12. The buttons of the feed.  After "dismiss" no view of the feed
    shows an alert with the id of the dismissed one; after "mark_read"
    no unread-only view does, while the unfiltered view still has as
    many entries as the store had alerts; "report", "learn_more" and
    any other action leave the store untouched. *)
Theorem feed_buttons (e : Env) (s : State) (a : Alert) (f action : string) (u : bool) :
  (forall x, In x (filteredAlerts f u (alerts (press e a "dismiss" s))) ->
             num_eq (id x) (id a) = false)
  /\ (forall x, In x (filteredAlerts f true (alerts (press e a "mark_read" s))) ->
                num_eq (id x) (id a) = false)
  /\ length (filteredAlerts "all" false (alerts (press e a "mark_read" s)))
     = length (alerts s)
  /\ (action <> "dismiss"%string -> action <> "mark_read"%string ->
      press e a action s = s).
Proof.
  split; [|split; [|split]].
  - intros x Hx. apply filteredAlerts_In in Hx. destruct Hx as [Hx _].
    unfold press, handleAlertAction in Hx.
    cbn [String.eqb Ascii.eqb Bool.eqb map dispatch_all fold_left fst snd] in Hx.
    unfold alertReducer in Hx; cbv zeta in Hx; cbn [alerts] in Hx.
    apply filter_In in Hx. destruct Hx as [_ Hx]. now apply negb_true_iff.
  - intros x Hx. apply filteredAlerts_In in Hx. destruct Hx as [Hx Hr].
    specialize (Hr eq_refl).
    unfold press, handleAlertAction in Hx.
    cbn [String.eqb Ascii.eqb Bool.eqb map dispatch_all fold_left fst snd] in Hx.
    destruct (num_eq (id x) (id a)) eqn:E; [|reflexivity].
    rewrite (mark_reads e s (id a) x Hx E) in Hr. discriminate.
  - unfold press, handleAlertAction.
    cbn [String.eqb Ascii.eqb Bool.eqb map dispatch_all fold_left fst snd].
    unfold filteredAlerts. cbn [andb String.eqb Ascii.eqb Bool.eqb].
    rewrite filter_all by reflexivity.
    unfold alertReducer; cbv zeta; cbn [alerts]. apply length_map.
  - intros H1 H2. unfold press, handleAlertAction.
    apply String.eqb_neq in H1, H2. now rewrite H1, H2.
Qed.

Ltac div_lia := Z.to_euclidean_division_equations; lia.

(** X13. [formatTimestamp] by age.  Anything younger than a minute,
    and anything stamped in the future, is "Just now"; from one minute
    the label counts whole minutes 1..59, from one hour whole hours
    1..23, from one day whole days 1..6; from seven days on it is the
    locale's date. *)
Theorem formatTimestamp_ranges (toLocaleDateString : Z -> string) (now_ ts : Z) :
  let d := now_ - ts in
  let label := formatTimestamp toLocaleDateString now_ ts in
  (d < 60000 -> label = "Just now"%string)
  /\ (60000 <= d < 3600000 ->
      label = (string_of_Z (d / 60000) ++ "m ago")%string /\ 1 <= d / 60000 <= 59)
  /\ (3600000 <= d < 86400000 ->
      label = (string_of_Z (d / 3600000) ++ "h ago")%string /\ 1 <= d / 3600000 <= 23)
  /\ (86400000 <= d < 604800000 ->
      label = (string_of_Z (d / 86400000) ++ "d ago")%string /\ 1 <= d / 86400000 <= 6)
  /\ (604800000 <= d -> label = toLocaleDateString ts).
Proof.
  intros d label. subst label. unfold formatTimestamp; cbv zeta. fold d.
  split; [|split; [|split; [|split]]]; intros H.
  - replace (d / 60000 <? 1) with true; [reflexivity|].
    symmetry. apply Z.ltb_lt. div_lia.
  - replace (d / 60000 <? 1) with false by (symmetry; apply Z.ltb_ge; div_lia).
    replace (d / 60000 <? 60) with true by (symmetry; apply Z.ltb_lt; div_lia).
    split; [reflexivity | div_lia].
  - replace (d / 60000 <? 1) with false by (symmetry; apply Z.ltb_ge; div_lia).
    replace (d / 60000 <? 60) with false by (symmetry; apply Z.ltb_ge; div_lia).
    replace (d / 3600000 <? 24) with true by (symmetry; apply Z.ltb_lt; div_lia).
    split; [reflexivity | div_lia].
  - replace (d / 60000 <? 1) with false by (symmetry; apply Z.ltb_ge; div_lia).
    replace (d / 60000 <? 60) with false by (symmetry; apply Z.ltb_ge; div_lia).
    replace (d / 3600000 <? 24) with false by (symmetry; apply Z.ltb_ge; div_lia).
    replace (d / 86400000 <? 7) with true by (symmetry; apply Z.ltb_lt; div_lia).
    split; [reflexivity | div_lia].
  - replace (d / 60000 <? 1) with false by (symmetry; apply Z.ltb_ge; div_lia).
    replace (d / 60000 <? 60) with false by (symmetry; apply Z.ltb_ge; div_lia).
    replace (d / 3600000 <? 24) with false by (symmetry; apply Z.ltb_ge; div_lia).
    replace (d / 86400000 <? 7) with false by (symmetry; apply Z.ltb_ge; div_lia).
    reflexivity.
Qed.

(** * The dashboard's recent alerts *)

(** X14. [formatTime] by age.  Under one hour (future stamps included)
    it is "Just now"; the singular forms "1 hour ago" and "1 day ago"
    cover exactly the second hour and the second day; the plural forms
    carry a count of 2..23 hours, or of at least 2 days. *)
Theorem formatTime_ranges (now_ ts : Z) :
  let d := now_ - ts in
  let label := formatTime now_ ts in
  (d < 3600000 -> label = "Just now"%string)
  /\ (3600000 <= d < 7200000 -> label = "1 hour ago"%string)
  /\ (7200000 <= d < 86400000 ->
      label = (string_of_Z (d / 3600000) ++ " hours ago")%string
      /\ 2 <= d / 3600000 <= 23)
  /\ (86400000 <= d < 172800000 -> label = "1 day ago"%string)
  /\ (172800000 <= d ->
      label = (string_of_Z (d / 3600000 / 24) ++ " days ago")%string
      /\ 2 <= d / 3600000 / 24
      /\ d / 3600000 / 24 = d / 86400000).
Proof.
  intros d label. subst label. unfold formatTime; cbv zeta. fold d.
  change (1000 * 60 * 60) with 3600000.
  assert (Hdd : d / 3600000 / 24 = d / 86400000)
    by (rewrite Z.div_div by lia; reflexivity).
  split; [|split; [|split; [|split]]]; intros H.
  - replace (d / 3600000 <? 1) with true; [reflexivity|].
    symmetry. apply Z.ltb_lt. div_lia.
  - replace (d / 3600000 <? 1) with false by (symmetry; apply Z.ltb_ge; div_lia).
    replace (d / 3600000 =? 1) with true by (symmetry; apply Z.eqb_eq; div_lia).
    reflexivity.
  - replace (d / 3600000 <? 1) with false by (symmetry; apply Z.ltb_ge; div_lia).
    replace (d / 3600000 =? 1) with false by (symmetry; apply Z.eqb_neq; div_lia).
    replace (d / 3600000 <? 24) with true by (symmetry; apply Z.ltb_lt; div_lia).
    split; [reflexivity | div_lia].
  - replace (d / 3600000 <? 1) with false by (symmetry; apply Z.ltb_ge; div_lia).
    replace (d / 3600000 =? 1) with false by (symmetry; apply Z.eqb_neq; div_lia).
    replace (d / 3600000 <? 24) with false by (symmetry; apply Z.ltb_ge; div_lia).
    replace (d / 3600000 / 24 =? 1) with true
      by (symmetry; apply Z.eqb_eq; rewrite Hdd; div_lia).
    reflexivity.
  - replace (d / 3600000 <? 1) with false by (symmetry; apply Z.ltb_ge; div_lia).
    replace (d / 3600000 =? 1) with false by (symmetry; apply Z.eqb_neq; div_lia).
    replace (d / 3600000 <? 24) with false by (symmetry; apply Z.ltb_ge; div_lia).
    replace (d / 3600000 / 24 =? 1) with false
      by (symmetry; apply Z.eqb_neq; rewrite Hdd; div_lia).
    split; [reflexivity|]. split; [rewrite Hdd; div_lia | exact Hdd].
Qed.

(** * The API client *)

Lemma or_else_nonempty (a b : string) : b <> ""%string -> or_else a b <> ""%string.
Proof.
  unfold or_else. intros Hb. destruct (String.eqb a "") eqn:E; [exact Hb|].
  now apply String.eqb_neq.
Qed.

(** X15. [handleNetworkError] never returns an empty error text.  A
    message containing "Failed to fetch" is of type network whether or
    not it also mentions a timeout; any message matching neither pattern
    is of type unknown and is passed on verbatim unless it is empty. *)
Theorem handleNetworkError_classifies (message : string) :
  error (handleNetworkError message) <> ""%string
  /\ (includes "Failed to fetch" message = true ->
      kind (handleNetworkError message) = "network"%string)
  /\ (includes "Failed to fetch" message = false ->
      includes "timeout" message = true ->
      kind (handleNetworkError message) = "timeout"%string)
  /\ (includes "Failed to fetch" message = false ->
      includes "timeout" message = false ->
      kind (handleNetworkError message) = "unknown"%string
      /\ (message <> ""%string -> error (handleNetworkError message) = message)).
Proof.
  unfold handleNetworkError.
  split; [|split; [|split]].
  - destruct (includes "Failed to fetch" message); [discriminate|].
    destruct (includes "timeout" message); [discriminate|].
    cbn [error]. apply or_else_nonempty. discriminate.
  - intros ->. reflexivity.
  - intros -> ->. reflexivity.
  - intros -> ->. split; [reflexivity|].
    intros Hm. cbn [error]. unfold or_else.
    apply String.eqb_neq in Hm. now rewrite Hm.
Qed.


(** ** Retrying *)

Lemma retry_loop_calls_le {A E : Type} (f : nat -> Attempt A E) (delay : Z)
      (remaining i : nat) :
  (calls (retry_loop f delay i remaining) <= remaining)%nat.
Proof.
  revert i. induction remaining as [|r IH]; intros i; cbn [retry_loop calls].
  - lia.
  - destruct (f i); cbn [calls]; [lia|].
    destruct (Nat.eqb_spec r 0); cbn [calls]; [lia|].
    specialize (IH (S i)). lia.
Qed.

Lemma retry_loop_step {A E : Type} (f : nat -> Attempt A E) (delay : Z)
      (i r : nat) :
  retry_loop f delay i (S r)
  = match f i with
    | Resolves v => {| outcome := Returned v; calls := 1; waits := [] |}
    | Throws err =>
        if (r =? 0)%nat then {| outcome := Rethrown err; calls := 1; waits := [] |}
        else {| outcome := outcome (retry_loop f delay (S i) r);
                calls := S (calls (retry_loop f delay (S i) r));
                waits := delay * 2 ^ Z.of_nat i :: waits (retry_loop f delay (S i) r) |}
    end.
Proof. reflexivity. Qed.

Lemma retry_loop_success {A E : Type} (f : nat -> Attempt A E) (delay : Z)
      (k : nat) (v : A) :
  forall i remaining,
    (k < remaining)%nat ->
    (forall j, (j < k)%nat -> exists err, f (i + j)%nat = Throws err) ->
    f (i + k)%nat = Resolves v ->
    retry_loop f delay i remaining
    = {| outcome := Returned v; calls := S k;
         waits := map (fun j => delay * 2 ^ Z.of_nat j) (seq i k) |}.
Proof.
  induction k as [|k IH]; intros i remaining Hk Hfail Hok.
  - destruct remaining as [|r]; [lia|]. rewrite retry_loop_step.
    rewrite Nat.add_0_r in Hok. rewrite Hok. reflexivity.
  - destruct remaining as [|r]; [lia|]. rewrite retry_loop_step.
    destruct (Hfail 0%nat ltac:(lia)) as [err Herr].
    rewrite Nat.add_0_r in Herr. rewrite Herr.
    destruct (Nat.eqb_spec r 0); [lia|].
    rewrite (IH (S i) r).
    + reflexivity.
    + lia.
    + intros j Hj. destruct (Hfail (S j) ltac:(lia)) as [err' Herr'].
      exists err'. now rewrite Nat.add_succ_comm.
    + now rewrite Nat.add_succ_comm.
Qed.

Lemma retry_loop_exhausted {A E : Type} (f : nat -> Attempt A E) (delay : Z)
      (k : nat) (last : E) :
  forall i,
    (forall j, (j < k)%nat -> exists err, f (i + j)%nat = Throws err) ->
    f (i + k)%nat = Throws last ->
    retry_loop f delay i (S k)
    = {| outcome := Rethrown last; calls := S k;
         waits := map (fun j => delay * 2 ^ Z.of_nat j) (seq i k) |}.
Proof.
  induction k as [|k IH]; intros i Hfail Hlast.
  - rewrite retry_loop_step. rewrite Nat.add_0_r in Hlast. rewrite Hlast.
    reflexivity.
  - rewrite retry_loop_step.
    destruct (Hfail 0%nat ltac:(lia)) as [err Herr].
    rewrite Nat.add_0_r in Herr. rewrite Herr.
    change (S k =? 0)%nat with false. cbv iota.
    rewrite (IH (S i)).
    + reflexivity.
    + intros j Hj. destruct (Hfail (S j) ltac:(lia)) as [err' Herr'].
      exists err'. now rewrite Nat.add_succ_comm.
    + now rewrite Nat.add_succ_comm.
Qed.

Lemma total_wait_doubling (delay : Z) (k i : nat) :
  total_wait (map (fun j => delay * 2 ^ Z.of_nat j) (seq i k))
  = delay * 2 ^ Z.of_nat i * (2 ^ Z.of_nat k - 1).
Proof.
  revert i. induction k as [|k IH]; intros i.
  - cbn. lia.
  - cbn [seq map total_wait fold_right].
    change (fold_right Z.add 0 ?l) with (total_wait l). rewrite IH.
    rewrite !Nat2Z.inj_succ, !Z.pow_succ_r by lia. ring.
Qed.

(** X17. When the request function first resolves at its call number
    [k] (counting from 0) and [k < maxRetries], [retryRequest] returns
    that value after exactly [k + 1] calls, having waited [delay],
    [2 delay], [4 delay], ... between them: [delay * (2^k - 1)] in all. *)
Theorem retryRequest_returns_first_success
  {A E : Type} (requestFunc : nat -> Attempt A E) (maxRetries : nat) (delay : Z)
  (k : nat) (v : A)
  (Hk : (k < maxRetries)%nat)
  (Hfail : forall j, (j < k)%nat -> exists err, requestFunc j = Throws err)
  (Hok : requestFunc k = Resolves v) :
  let r := retryRequest requestFunc maxRetries delay in
  outcome r = Returned v
  /\ calls r = S k
  /\ waits r = map (fun j => delay * 2 ^ Z.of_nat j) (seq 0 k)
  /\ total_wait (waits r) = delay * (2 ^ Z.of_nat k - 1).
Proof.
  intros r. subst r. unfold retryRequest.
  rewrite (retry_loop_success requestFunc delay k v 0 maxRetries Hk Hfail Hok).
  cbn [outcome calls waits]. repeat split.
  rewrite total_wait_doubling. cbn [Z.of_nat]. ring.
Qed.

Lemma retryRequest_returns_first_success_witness :
  let r := retryRequest flaky 3 1000 in
  ((2 < 3)%nat
   /\ (forall j, (j < 2)%nat -> exists err, flaky j = Throws err)
   /\ flaky 2 = Resolves "ok"%string)
  /\ outcome r = Returned "ok"%string
  /\ calls r = 3%nat
  /\ waits r = map (fun j => 1000 * 2 ^ Z.of_nat j) (seq 0 2)
  /\ total_wait (waits r) = 1000 * (2 ^ Z.of_nat 2 - 1).
Proof.
  intros r.
  assert (Hk : (2 < 3)%nat) by lia.
  assert (Hfail : forall j, (j < 2)%nat -> exists err, flaky j = Throws err).
  { intros j Hj. exists "Failed to fetch"%string. unfold flaky.
    now replace (j <? 2)%nat with true by (symmetry; now apply Nat.ltb_lt). }
  split; [repeat split; [exact Hk | exact Hfail]|].
  exact (retryRequest_returns_first_success flaky 3 1000 2 "ok"%string
           Hk Hfail eq_refl).
Defined.

(** X18. [retryRequest] never calls the request function more than
    [maxRetries] times and makes no call at all when [maxRetries] is 0,
    returning undefined.  When every one of [maxRetries >= 1] calls
    throws, it rethrows the error of the last call, without waiting
    after it: the waits add up to [delay * (2^(maxRetries-1) - 1)]. *)
Theorem retryRequest_gives_up
  {A E : Type} (requestFunc : nat -> Attempt A E) (n : nat) (delay : Z) (last : E)
  (Hfail : forall j, (j < n)%nat -> exists err, requestFunc j = Throws err)
  (Hlast : requestFunc n = Throws last) :
  (forall m, (calls (retryRequest requestFunc m delay) <= m)%nat)
  /\ retryRequest requestFunc 0 delay
     = {| outcome := ReturnedUndefined; calls := 0; waits := [] |}
  /\ let r := retryRequest requestFunc (S n) delay in
     outcome r = Rethrown last
     /\ calls r = S n
     /\ length (waits r) = n
     /\ total_wait (waits r) = delay * (2 ^ Z.of_nat n - 1).
Proof.
  split; [intros m; apply retry_loop_calls_le|]. split; [reflexivity|].
  cbv zeta. unfold retryRequest.
  rewrite (retry_loop_exhausted requestFunc delay n last 0 Hfail Hlast).
  cbn [outcome calls waits]. split; [reflexivity|]. split; [reflexivity|].
  split; [now rewrite length_map, length_seq|].
  rewrite total_wait_doubling. cbn [Z.of_nat]. ring.
Qed.

Lemma retryRequest_gives_up_witness :
  let f : nat -> Attempt string string := fun _ => Throws "timeout"%string in
  ((forall j, (j < 2)%nat -> exists err, f j = Throws err)
   /\ f 2%nat = Throws "timeout"%string)
  /\ (forall m, (calls (retryRequest f m 1000) <= m)%nat)
  /\ retryRequest f 0 1000
     = {| outcome := ReturnedUndefined; calls := 0; waits := [] |}
  /\ let r := retryRequest f 3 1000 in
     outcome r = Rethrown "timeout"%string
     /\ calls r = 3%nat
     /\ length (waits r) = 2%nat
     /\ total_wait (waits r) = 1000 * (2 ^ Z.of_nat 2 - 1).
Proof.
  intros f.
  assert (Hfail : forall j, (j < 2)%nat -> exists err, f j = Throws err)
    by (intros j _; now exists "timeout"%string).
  split; [split; [exact Hfail | reflexivity]|].
  exact (retryRequest_gives_up f 2 1000 "timeout"%string Hfail eq_refl).
Defined.

(** * Scan statistics *)

Lemma count_cons (f : option string -> bool) (r : option string)
      (l : list (option string)) :
  count f (r :: l) = (if f r then 1 else 0) + count f l.
Proof.
  unfold count. cbn [filter]. destruct (f r); cbn [length]; lia.
Qed.

Lemma after_analyses_stored (s : Stats) (results : list (option string)) :
  after_analyses (stats_json s) results
  = stats_json
      {| totalScans := totalScans s + Z.of_nat (length results);
         threatsDetected := threatsDetected s + count is_threat results;
         safeContent := safeContent s + count is_safe results;
         accuracyRate := accuracyRate s |}.
Proof.
  revert s. induction results as [|r results IH]; intros s.
  - cbn. destruct s; cbn. f_equal. f_equal; lia.
  - unfold after_analyses. cbn [fold_left].
    change (fold_left (fun st r0 => updateStatistics r0 st) results ?x)
      with (after_analyses x results).
    unfold updateStatistics at 1; cbv zeta.
    fold (is_threat r). fold (is_safe r).
    rewrite IH. cbn [totalScans threatsDetected safeContent accuracyRate].
    rewrite !count_cons.
    assert (Hex : is_threat r = true -> is_safe r = false).
    { unfold is_threat, is_safe. destruct r as [x|]; cbn; [|discriminate].
      destruct (String.eqb_spec x "low") as [->|]; [discriminate | reflexivity]. }
    f_equal. destruct (is_threat r) eqn:Et.
    + rewrite (Hex eq_refl). f_equal; cbn [length]; lia.
    + destruct (is_safe r); f_equal; cbn [length]; lia.
Qed.

(** X19. After any series of analyses on fresh or parsable storage, the
    dashboard shows one scan per analysis, one threat per result of
    risk high or critical and one safe item per result of risk low (a
    medium or unknown risk counts as a scan only), so threats and safe
    items never add up to more than the scans; the accuracy rate is
    never recomputed: it stays 95 from fresh storage.  With nothing
    stored the dashboard shows zeros, accuracy 0 included, and on
    unparsable storage every update is dropped. *)
Theorem statistics_count_analyses (results : list (option string)) (s : Stats) :
  loadStats (after_analyses (stats_json s) results)
  = {| totalScans := totalScans s + Z.of_nat (length results);
       threatsDetected := threatsDetected s + count is_threat results;
       safeContent := safeContent s + count is_safe results;
       accuracyRate := accuracyRate s |}
  /\ (results <> [] ->
      loadStats (after_analyses no_stats results)
      = {| totalScans := Z.of_nat (length results);
           threatsDetected := count is_threat results;
           safeContent := count is_safe results;
           accuracyRate := 95 |})
  /\ count is_threat results + count is_safe results <= Z.of_nat (length results)
  /\ accuracyRate (loadStats no_stats) = 0
  /\ after_analyses stats_unparsable results = stats_unparsable.
Proof.
  split; [now rewrite after_analyses_stored|]. split; [|split; [|split]].
  - destruct results as [|r results]; [congruence|]. intros _.
    unfold after_analyses. cbn [fold_left].
    change (fold_left (fun st r0 => updateStatistics r0 st) results ?x)
      with (after_analyses x results).
    unfold updateStatistics at 1; cbv zeta.
    fold (is_threat r). fold (is_safe r).
    rewrite after_analyses_stored.
    cbn [loadStats totalScans threatsDetected safeContent accuracyRate defaultStats].
    rewrite !count_cons.
    assert (Hex : is_threat r = true -> is_safe r = false).
    { unfold is_threat, is_safe. destruct r as [x|]; cbn; [|discriminate].
      destruct (String.eqb_spec x "low") as [->|]; [discriminate | reflexivity]. }
    destruct (is_threat r) eqn:Et.
    + rewrite (Hex eq_refl). f_equal; cbn [length]; lia.
    + destruct (is_safe r); f_equal; cbn [length]; lia.
  - induction results as [|r results IH]; [cbn; lia|].
    rewrite !count_cons. cbn [length]. rewrite Nat2Z.inj_succ.
    assert (Hex : is_threat r = true -> is_safe r = false).
    { unfold is_threat, is_safe. destruct r as [x|]; cbn; [|discriminate].
      destruct (String.eqb_spec x "low") as [->|]; [discriminate | reflexivity]. }
    destruct (is_threat r) eqn:Et; [rewrite (Hex eq_refl); lia|].
    destruct (is_safe r); lia.
  - reflexivity.
  - induction results as [|r results IH]; [reflexivity | exact IH].
Qed.

(** * The image analyzer *)

Lemma mock_confidence_bounds (r : Q) :
  (0 <= r)%Q -> (r < 1)%Q -> 70 <= Qfloor (r * 30) + 70 <= 99.
Proof.
  intros H0 H1.
  assert (Hlo : 0 <= Qfloor (r * 30)).
  { change 0 with (Qfloor 0). apply Qfloor_resp_le. lra. }
  assert (Hhi : Qfloor (r * 30) < 30).
  { rewrite Zlt_Qlt. apply (Qle_lt_trans _ (r * 30)); [apply Qfloor_le|].
    change (inject_Z 30) with 30%Q. lra. }
  lia.
Qed.

(** X20. The object the image analyzer imports as [api] has no [post]
    member, so whatever the server would answer, an analysis with a
    file selected ends in the [catch] block: the result shown is the
    demo response, announced as demo mode, with loading switched off;
    its confidence lies between 70 and 99 and its risk level is low or
    medium, never high.  Without a file nothing changes but an error
    toast. *)
Theorem analyzeImage_always_demo
  {F D : Type} (server : Settled D) (r1 r2 : Q) (v : View F D)
  (Hr2 : (0 <= r2)%Q /\ (r2 < 1)%Q) :
  (forall file, selectedFile v = Some file ->
     let '(v', toasts) := analyzeImage server r1 r2 v in
     analysis v' = Some (demo (mockResponse r1 r2))
     /\ loading v' = false
     /\ selectedFile v' = Some file
     /\ toasts = [toast_success "Image analysis completed (demo mode)"])
  /\ 70 <= confidence (mockResponse r1 r2) <= 99
  /\ (risk_level (mockResponse r1 r2) = "low"%string
      \/ risk_level (mockResponse r1 r2) = "medium"%string)
  /\ (selectedFile v = None ->
      analyzeImage server r1 r2 v
      = (v, [toast_error "Please select an image first"])).
Proof.
  destruct Hr2 as [H0 H1]. split; [|split; [|split]].
  - intros file Hfile. unfold analyzeImage. rewrite Hfile.
    change (api_has "post") with false. cbv iota zeta beta.
    cbn [analysis loading selectedFile]. repeat split.
  - cbn [mockResponse confidence]. now apply mock_confidence_bounds.
  - cbn [mockResponse risk_level]. destruct (Qle_bool r1 (1 # 2)); [now left | now right].
  - intros Hnone. unfold analyzeImage. now rewrite Hnone.
Qed.

Lemma analyzeImage_always_demo_witness :
  let server : Settled string := Fulfilled "high risk"%string in
  let v : View string string :=
    {| selectedFile := Some "screenshot.png"%string; analysis := None;
       loading := false |} in
  let r1 := 3 # 4 in
  let r2 := 99 # 100 in
  ((0 <= r2)%Q /\ (r2 < 1)%Q)
  /\ (forall file, selectedFile v = Some file ->
        let '(v', toasts) := analyzeImage server r1 r2 v in
        analysis v' = Some (demo (mockResponse r1 r2))
        /\ loading v' = false
        /\ selectedFile v' = Some file
        /\ toasts = [toast_success "Image analysis completed (demo mode)"])
  /\ 70 <= confidence (mockResponse r1 r2) <= 99
  /\ (risk_level (mockResponse r1 r2) = "low"%string
      \/ risk_level (mockResponse r1 r2) = "medium"%string)
  /\ (selectedFile v = None ->
      analyzeImage server r1 r2 v
      = (v, [toast_error "Please select an image first"])).
Proof.
  intros server v r1 r2.
  assert (H : (0 <= r2)%Q /\ (r2 < 1)%Q) by (subst r2; split; lra).
  split; [exact H|].
  exact (analyzeImage_always_demo server r1 r2 v H).
Defined.

(** * The dashboard *)

(** X21. The dashboard hides its recent-alerts card exactly when the
    store is empty; otherwise it shows the first five alerts of the
    store at most, and right after an alert is stored that alert heads
    the card, followed by the four newest of the alerts present
    before. *)
Theorem dashboard_shows_newest_five (e : Env) (s : State) (p : Payload)
  (Hnew : existingAlert e s (newAlert e p) = None) :
  (dashboardRecent s = None <-> alerts s = [])
  /\ (forall shown, dashboardRecent s = Some shown ->
        (length shown <= 5)%nat /\ exists rest, alerts s = shown ++ rest)
  /\ dashboardRecent (alertReducer e s (ADD_ALERT p))
     = Some (newAlert e p :: firstn 4 (alerts s)).
Proof.
  split; [|split].
  - unfold dashboardRecent. destruct (alerts s) as [|a l]; cbn [length Nat.ltb Nat.leb].
    + split; reflexivity.
    + split; discriminate.
  - intros shown. unfold dashboardRecent.
    destruct (Nat.ltb _ _); [|discriminate]. unfold slice0. intros Heq.
    assert (Hs : shown = firstn 5 (alerts s)) by congruence.
    rewrite Hs. split.
    + apply firstn_le_length.
    + exists (skipn 5 (alerts s)). symmetry. apply firstn_skipn.
  - rewrite (add_not_duplicate _ _ _ (existingAlert_none _ _ _ Hnew)).
    unfold dashboardRecent, slice0. cbn [alerts].
    change (firstn 100 (newAlert e p :: alerts s))
      with (newAlert e p :: firstn 99 (alerts s)).
    cbn [length Nat.ltb Nat.leb].
    change (firstn 5 (newAlert e p :: firstn 99 (alerts s)))
      with (newAlert e p :: firstn 4 (firstn 99 (alerts s))).
    rewrite firstn_firstn. reflexivity.
Qed.

Lemma dashboard_shows_newest_five_witness :
  let e := at_time 9000 in
  let s := dispatch_all emptyStore (sample_adds 7) in
  let p := sample_candidate 7 in
  existingAlert e s (newAlert e p) = None
  /\ (dashboardRecent s = None <-> alerts s = [])
  /\ (forall shown, dashboardRecent s = Some shown ->
        (length shown <= 5)%nat /\ exists rest, alerts s = shown ++ rest)
  /\ dashboardRecent (alertReducer e s (ADD_ALERT p))
     = Some (newAlert e p :: firstn 4 (alerts s)).
Proof.
  intros e s p. split; [reflexivity|].
  exact (dashboard_shows_newest_five e s p eq_refl).
Defined.

(** * Builders, promotion and reload *)

(** X22. Which built alerts become notifications.  A phishing alert is
    promoted whatever its risk level, and its severity is critical,
    high or medium, never low; a security or system alert is promoted
    exactly when its severity is critical or high, so a system alert of
    type error is stored but never pops up.  No builder sets id,
    timestamp or read. *)
Theorem built_alerts_promotion
  (e : Env) (c k t sev : string) (risk : option string) (d : Details) :
  let phishing := newAlert e (createPhishingAlert c k risk d) in
  let security := newAlert e (createSecurityAlert t c sev d) in
  let system := newAlert e (createSystemAlert t c sev d) in
  highPriority phishing = true
  /\ (severity phishing = Some "critical"%string
      \/ severity phishing = Some "high"%string
      \/ severity phishing = Some "medium"%string)
  /\ (highPriority security = true
      <-> sev = "critical"%string \/ sev = "high"%string)
  /\ (highPriority system = true
      <-> sev = "critical"%string \/ sev = "high"%string)
  /\ highPriority (newAlert e (createSystemAlert t c "error" d)) = false
  /\ (id phishing = (inject_Z (now e) + random e)%Q
      /\ timestamp phishing = now e /\ read phishing = false)
  /\ (id security = id phishing /\ timestamp security = now e
      /\ read security = false)
  /\ (id system = id phishing /\ timestamp system = now e
      /\ read system = false).
Proof.
  cbv zeta.
  assert (Hsev : forall ty : string,
             ty <> "phishing_detected"%string ->
             (strict_eq (Some sev) (Some "critical"%string)
              || strict_eq (Some sev) (Some "high"%string)
              || strict_eq (Some ty) (Some "phishing_detected"%string) = true
              <-> sev = "critical"%string \/ sev = "high"%string)).
  { intros ty Hty. rewrite !orb_true_iff, !strict_eq_true. split.
    - intros [[H | H] | H]; [left | right | ]; congruence.
    - intros [-> | ->]; [left; left | left; right]; reflexivity. }
  split; [|split; [|split; [|split; [|split; [|split; [|split]]]]]].
  - unfold highPriority, newAlert, createPhishingAlert; cbn [type severity p_type].
    apply orb_true_r.
  - unfold newAlert, createPhishingAlert; cbn [severity p_severity].
    destruct (strict_eq risk (Some "critical"%string)); [now left|].
    destruct (strict_eq risk (Some "high"%string)); [right; now left|].
    right; now right.
  - apply (Hsev "security_warning"%string). discriminate.
  - apply (Hsev "system_notification"%string). discriminate.
  - reflexivity.
  - repeat split.
  - repeat split.
  - repeat split.
Qed.

Lemma newAlerts_from_nothing (al : list Alert) :
  newAlerts al [] = filter (fun a => negb (read a) && highPriority a) al.
Proof.
  unfold newAlerts. apply filter_ext. intros a. cbn [find truthy negb].
  now rewrite andb_true_r.
Qed.

(** X23. The visible set is not persisted: on the first render after a
    reload every stored alert that is still unread and of high
    priority is promoted again, in store order, each with a timer of
    its own due 5000 ms later; alerts that were read stay away. *)
Theorem reload_promotes_unread_again (e : Env) (s : State) :
  let sys := handle (initialSystem (persist s)) (e, Mount) in
  let again := filter (fun a => negb (read a) && highPriority a) (alerts s) in
  alerts (store sys) = alerts s
  /\ visibleAlerts (presenter sys) = again
  /\ timers (presenter sys) = map (timer_for (now e + 5000)) again
  /\ (forall a, In a (alerts s) -> read a = true ->
                ~ In a (visibleAlerts (presenter sys)))
  /\ log sys = [].
Proof.
  cbv zeta. unfold handle; cbn [fst snd]. unfold rerender, initialSystem.
  cbn [store presenter log initialState persist JSON_parse_or_empty alerts].
  assert (Hv : visibleAlerts (promotionEffect e (alerts s) initialPresenter)
               = filter (fun a => negb (read a) && highPriority a) (alerts s)).
  { rewrite promotionEffect_visible. cbn [initialPresenter visibleAlerts app].
    apply newAlerts_from_nothing. }
  split; [reflexivity|]. split; [exact Hv|]. split; [|split; [|reflexivity]].
  - unfold promotionEffect; cbv zeta.
    cbn [initialPresenter visibleAlerts autoDismiss dismissTimeout timers].
    rewrite newAlerts_from_nothing.
    destruct (filter _ (alerts s)) as [|a l]; reflexivity.
  - intros a _ Hread. rewrite Hv. intros Hin. apply filter_In in Hin.
    destruct Hin as [_ Hp]. rewrite Hread in Hp. discriminate.
Qed.
